(** * Procedural terrain generator of multiple_lights.cpp

    A shallow embedding of [sampleHeight] and [generateTerrain] and the
    properties of the mesh they produce.

    - C++ [int] is a [Z] kept inside the 32-bit signed range; an operation
      whose mathematical result leaves the range has no defined result
      (signed overflow), which the embedding renders as [None].
    - [std::vector] is a [list]; [operator[]] outside the vector has no
      defined result either.  Memory is not bounded: an allocation of a
      non-negative size succeeds.
    - [float] arithmetic is reached through the interface [FloatOps], with
      two implementations: [binary32] (IEEE 754 single precision, round to
      nearest even, from the Standard Library's [SpecFloat]) and [ideal]
      (exact real arithmetic).  The gradient noise of stb_perlin.h and the
      power function of the C library are fields of the interface. *)

From Stdlib Require Import ZArith List Lia Bool Reals Lra.
From Stdlib Require Import Floats.SpecFloat.
From stdpp Require Import base option list.

#[local] Open Scope Z_scope.

(** ** Machine integers *)

Module Int.

Definition min_int : Z := - 2 ^ 31.
Definition max_int : Z := 2 ^ 31 - 1.

Definition in_range (n : Z) : bool := (min_int <=? n) && (n <=? max_int).

(** The result of a signed operation: defined only inside the range. *)
Definition chk (n : Z) : option Z := if in_range n then Some n else None.

Definition add (a b : Z) : option Z := chk (a + b).
Definition sub (a b : Z) : option Z := chk (a - b).
Definition mul (a b : Z) : option Z := chk (a * b).
(** [a / b] truncates toward zero. *)
Definition div (a b : Z) : option Z :=
  if b =? 0 then None else chk (Z.quot a b).

(** Conversion [int -> unsigned int]: reduction modulo 2^32. *)
Definition to_unsigned (n : Z) : Z := n mod 2 ^ 32.

End Int.

(** ** Vectors *)

Section Vector.
Context {A : Type}.

Definition vec_clear (v : list A) : list A := [].

Definition push_back (v : list A) (x : A) : list A := v ++ [x].

(** [std::vector<T> v(n)] with [n] an [int] converted to [size_t]: a
    negative [n] becomes a size no allocation can satisfy. *)
Definition vec_new (n : Z) (dflt : A) : option (list A) :=
  if 0 <=? n then Some (replicate (Z.to_nat n) dflt) else None.

(** [v[i]] read. *)
Definition vec_get (v : list A) (i : Z) : option A :=
  if 0 <=? i then v !! Z.to_nat i else None.

(** [v[i] = x]. *)
Definition vec_set (v : list A) (i : Z) (x : A) : option (list A) :=
  if (0 <=? i) && (i <? Z.of_nat (length v))
  then Some (<[Z.to_nat i := x]> v) else None.

End Vector.

(** ** Counted loops

    [for (int i = lo; i < lo + n; ++i) body], the body threading a state
    and possibly leaving defined behaviour. *)

Fixpoint for_loop {S : Type} (n : nat) (i : Z)
    (body : Z -> S -> option S) (s : S) : option S :=
  match n with
  | O => Some s
  | Datatypes.S n' =>
      match body i s with
      | Some s' => for_loop n' (i + 1) body s'
      | None => None
      end
  end.

(** [for (int i = 0; i < hi; ++i) body]. *)
Definition for_int {S : Type} (hi : Z) (body : Z -> S -> option S) (s : S)
  : option S :=
  for_loop (Z.to_nat hi) 0 body s.

(** ** The arithmetic of [float] *)

Class FloatOps (F : Type) := {
  fadd : F -> F -> F;
  fsub : F -> F -> F;
  fmul : F -> F -> F;
  fdiv : F -> F -> F;
  fsqrt : F -> F;
  (** [pow] of the C library. *)
  powf : F -> F -> F;
  (** The literal or converted integer [m * 2^e], rounded to [F]. *)
  flit : Z -> Z -> F;
  (** [stb_perlin_noise3 (x, y, z, x_wrap, y_wrap, z_wrap)]. *)
  stb_perlin_noise3 : F -> F -> F -> Z -> Z -> Z -> F
}.

(** The type of [stb_perlin_noise3] over the floats [F]. *)
Definition noise_fn (F : Type) : Type := F -> F -> F -> Z -> Z -> Z -> F.

(** [(float) n] for an [int] n. *)
Definition of_int {F} `{FloatOps F} (n : Z) : F := flit n 0.

Record vec3 (F : Type) := Vec3 { vx : F; vy : F; vz : F }.
Arguments Vec3 {F} _ _ _.
Arguments vx {F} _.
Arguments vy {F} _.
Arguments vz {F} _.

(** ** The functions of GLM used by the generator

    GLM is a header-only library outside the repository; these are its
    scalar definitions of [dot], [inversesqrt], [normalize] and [length]
    for [vec3]. *)

Module glm.
Section Glm.
Context {F : Type} `{FloatOps F}.

Definition dot (a b : vec3 F) : F :=
  fadd (fadd (fmul (vx a) (vx b)) (fmul (vy a) (vy b))) (fmul (vz a) (vz b)).

Definition inversesqrt (x : F) : F := fdiv (flit 1 0) (fsqrt x).

Definition scale_vec (v : vec3 F) (k : F) : vec3 F :=
  Vec3 (fmul (vx v) k) (fmul (vy v) k) (fmul (vz v) k).

Definition normalize (v : vec3 F) : vec3 F :=
  scale_vec v (inversesqrt (dot v v)).

Definition length (v : vec3 F) : F := fsqrt (dot v v).

End Glm.
End glm.

(** ** The generator *)

Section Terrain.
Context {F : Type} `{FloatOps F}.

(** The octave loop of [sampleHeight]: [n] iterations remain, [height],
    [amp] and [f] are the loop's variables. *)
Fixpoint octave_loop (n : nat) (persistence lacunarity : F) (x z : F)
    (height amp f : F) : F :=
  match n with
  | O => height
  | S n' =>
      let nz := stb_perlin_noise3 (fmul x f) (flit 0 0) (fmul z f) 0 0 0 in
      let height := fadd height (fmul nz amp) in
      let amp := fmul amp persistence in
      let f := fmul f lacunarity in
      octave_loop n' persistence lacunarity x z height amp f
  end.

Definition sampleHeight (x z offsetX offsetZ amplitude freq : F) : F :=
  let x := fadd x offsetX in
  let z := fadd z offsetZ in
  let octaves := 6%nat in
  let persistence := flit 1 (-1) in
  let lacunarity := flit 2 0 in
  let height := flit 0 0 in
  let amp := flit 1 0 in
  let f := freq in
  let height := octave_loop octaves persistence lacunarity x z height amp f in
  let height := fdiv (fadd height (flit 1 0)) (flit 2 0) in
  let height := powf height (flit 3 (-1)) in
  fmul height amplitude.

(** [z * N + x], the row-major index. *)
Definition idx (N z x : Z) : option Z :=
  zN ← Int.mul z N; Int.add zN x.

(** First loop nest of [generateTerrain]: the heights grid. *)
Definition fill_heights (N : Z) (scale offsetX offsetZ amplitude freq : F)
    (heights : list F) : option (list F) :=
  for_int N (fun z heights =>
    for_int N (fun x heights =>
      let wx := of_int x in
      let wz := of_int z in
      let h := sampleHeight (fmul wx scale) (fmul wz scale)
                 offsetX offsetZ amplitude freq in
      i ← idx N z x;
      vec_set heights i h) heights) heights.

(** The body of the second loop nest: one vertex, eight floats. *)
Definition vertex_at (N : Z) (scale : F) (heights : list F) (z x : Z)
    (vertices : list F) : option (list F) :=
  half ← Int.div N 2;
  dx ← Int.sub x half;
  let px := fmul (of_int dx) scale in
  dz ← Int.sub z half;
  let pz := fmul (of_int dz) scale in
  i ← idx N z x;
  py ← vec_get heights i;
  hl ← (if 0 <? x
        then x1 ← Int.sub x 1; j ← idx N z x1; vec_get heights j
        else j ← idx N z x; vec_get heights j);
  n1 ← Int.sub N 1;
  hr ← (if x <? n1
        then x1 ← Int.add x 1; j ← idx N z x1; vec_get heights j
        else j ← idx N z x; vec_get heights j);
  hd ← (if 0 <? z
        then z1 ← Int.sub z 1; j ← idx N z1 x; vec_get heights j
        else j ← idx N z x; vec_get heights j);
  hu ← (if z <? n1
        then z1 ← Int.add z 1; j ← idx N z1 x; vec_get heights j
        else j ← idx N z x; vec_get heights j);
  let normal := Vec3 (fsub hl hr) (fmul (flit 2 0) scale) (fsub hd hu) in
  let normal := glm.normalize normal in
  let u := fdiv (of_int x) (of_int n1) in
  let v := fdiv (of_int z) (of_int n1) in
  let vertices := push_back vertices px in
  let vertices := push_back vertices py in
  let vertices := push_back vertices pz in
  let vertices := push_back vertices (vx normal) in
  let vertices := push_back vertices (vy normal) in
  let vertices := push_back vertices (vz normal) in
  let vertices := push_back vertices u in
  let vertices := push_back vertices v in
  Some vertices.

Definition build_vertices (N : Z) (scale : F) (heights : list F)
    (vertices : list F) : option (list F) :=
  for_int N (fun z vertices =>
    for_int N (fun x vertices =>
      vertex_at N scale heights z x vertices) vertices) vertices.

(** The body of the third loop nest: the two triangles of one cell. *)
Definition cell_at (N z x : Z) (indices : list Z) : option (list Z) :=
  i0 ← idx N z x;
  let i0 := Int.to_unsigned i0 in
  x1 ← Int.add x 1;
  i1 ← idx N z x1;
  let i1 := Int.to_unsigned i1 in
  z1 ← Int.add z 1;
  i2 ← idx N z1 x;
  let i2 := Int.to_unsigned i2 in
  i3 ← idx N z1 x1;
  let i3 := Int.to_unsigned i3 in
  let indices := push_back indices i0 in
  let indices := push_back indices i2 in
  let indices := push_back indices i1 in
  let indices := push_back indices i1 in
  let indices := push_back indices i2 in
  let indices := push_back indices i3 in
  Some indices.

Definition build_indices (N : Z) (indices : list Z) : option (list Z) :=
  n1 ← Int.sub N 1;
  for_int n1 (fun z indices =>
    for_int n1 (fun x indices => cell_at N z x indices) indices) indices.

(** [vertices.reserve (N * N * 8)] and
    [indices.reserve ((N - 1) * (N - 1) * 6)]: the capacity is not part of
    the vector's contents; what remains are the [int] expressions. *)
Definition reserve_sizes (N : Z) : option unit :=
  nn ← Int.mul N N;
  _ ← Int.mul nn 8;
  n1 ← Int.sub N 1;
  m ← Int.mul n1 n1;
  _ ← Int.mul m 6;
  Some ().

Definition generateTerrain (vertices : list F) (indices : list Z) (N : Z)
    (scale offsetX offsetZ amplitude freq : F)
  : option (list F * list Z) :=
  let vertices := vec_clear vertices in
  let indices := vec_clear indices in
  _ ← reserve_sizes N;
  nn ← Int.mul N N;
  heights ← vec_new nn (flit 0 0);
  heights ← fill_heights N scale offsetX offsetZ amplitude freq heights;
  vertices ← build_vertices N scale heights vertices;
  indices ← build_indices N indices;
  Some (vertices, indices).

End Terrain.

(** ** IEEE 754 single precision *)

Module B32.

Definition prec : Z := 24.
Definition emax : Z := 128.

Definition lit (m e : Z) : spec_float := binary_normalize prec emax m e false.

End B32.

(** The noise and power functions are those handed in. *)
Definition binary32
    (noise : noise_fn spec_float)
    (pw : spec_float -> spec_float -> spec_float) : FloatOps spec_float :=
  {| fadd := SFadd B32.prec B32.emax;
     fsub := SFsub B32.prec B32.emax;
     fmul := SFmul B32.prec B32.emax;
     fdiv := SFdiv B32.prec B32.emax;
     fsqrt := SFsqrt B32.prec B32.emax;
     powf := pw;
     flit := B32.lit;
     stb_perlin_noise3 := noise |}.

(** The terrain state of the program. *)
Definition GRID_N : Z := 256.
Definition terrainScale : spec_float := B32.lit 1 (-1).
Definition terrainAmplitude : spec_float := B32.lit 30 0.
Definition terrainFreq : spec_float := B32.lit 10737418 (-29).
Definition terrainOffsetX : spec_float := B32.lit 0 0.
Definition terrainOffsetZ : spec_float := B32.lit 0 0.

(** Concrete stand-ins for the two library functions, used where a closed
    term is evaluated: a noise that returns [c] everywhere, and [x^1.5]
    computed as [x * sqrt x].  No general statement depends on them. *)
Definition const_noise (c : spec_float)
  : noise_fn spec_float :=
  fun _ _ _ _ _ _ => c.

Definition pow_sqrt (x y : spec_float) : spec_float :=
  SFmul B32.prec B32.emax x (SFsqrt B32.prec B32.emax x).

(** Single precision over a level noise field. *)
Definition level32 (c : spec_float) : FloatOps spec_float :=
  binary32 (const_noise c) pow_sqrt.

Definition flat32 : FloatOps spec_float := level32 (B32.lit 0 0).

(** ** Exact real arithmetic

    The same operations without rounding, overflow or underflow.  [pow] is
    the real power for a positive base and [0] at base [0]; a negative base
    with a fractional exponent has no real value (the C library returns NaN
    there), and the statements about [ideal] keep the base non-negative. *)

Module Ideal.

Definition lit (m e : Z) : R := (IZR m * powerRZ 2 e)%R.

Definition pow (x y : R) : R :=
  if Rle_dec x 0 then 0%R else Rpower x y.

End Ideal.

Definition ideal (noise : noise_fn R) : FloatOps R :=
  {| fadd := Rplus;
     fsub := Rminus;
     fmul := Rmult;
     fdiv := Rdiv;
     fsqrt := sqrt;
     powf := Ideal.pow;
     flit := Ideal.lit;
     stb_perlin_noise3 := noise |}.

(** A noise field that is 1 everywhere, the top of the range [-1, 1]. *)
Definition unit_noise : noise_fn R :=
  fun _ _ _ _ _ _ => 1%R.

(** A noise field that is 0 everywhere. *)
Definition null_noise : noise_fn R :=
  fun _ _ _ _ _ _ => 0%R.

(** ** What the claims speak of *)

(** The largest [N] for which [N * N * 8] is an [int]. *)
Definition max_grid : Z := 16383.

(** The vertex stream cut into vertices of [w] floats: vertex number [k]. *)
Definition chunk {A : Type} (w k : nat) (l : list A) : list A :=
  take w (drop (w * k) l).

(** The index stream cut into triangles. *)
Fixpoint triangles (l : list Z) : list (Z * Z * Z) :=
  match l with
  | a :: b :: c :: l' => (a, b, c) :: triangles l'
  | _ => []
  end.

Definition distinct3 (t : Z * Z * Z) : Prop :=
  let '(a, b, c) := t in a <> b /\ b <> c /\ a <> c.

(** A stream made of whole triangles, each with three distinct corners. *)
Definition whole_distinct (l : list Z) : Prop :=
  (exists k, length l = (3 * k)%nat) /\ Forall distinct3 (triangles l).

(** The four corners of cell [(x, z)] and its two triangles, as the
    specification words them. *)
Definition corner (N z x : Z) : Z := z * N + x.

Definition cell_triangles (N z x : Z) : list Z :=
  let i0 := corner N z x in
  let i1 := corner N z (x + 1) in
  let i2 := corner N (z + 1) x in
  let i3 := corner N (z + 1) (x + 1) in
  [i0; i2; i1; i1; i2; i3].

(** The cells in row-major order. *)
Definition index_sequence (N : Z) : list Z :=
  z ← seqZ 0 (N - 1); x ← seqZ 0 (N - 1); cell_triangles N z x.

Section TerrainSpec.
Context {F : Type} `{FloatOps F}.

(** The elevation at lattice point [(x, z)]. *)
Definition sample_at (scale offsetX offsetZ amplitude freq : F) (z x : Z) : F :=
  sampleHeight (fmul (of_int x) scale) (fmul (of_int z) scale)
    offsetX offsetZ amplitude freq.

(** Entry [(z, x)] of a row-major grid. *)
Definition grid_at (N : Z) (heights : list F) (z x : Z) : F :=
  nth (Z.to_nat (z * N + x)) heights (flit 0 0).

(** The neighbours of [(x, z)] along x and along z, a missing neighbour
    replaced by the point's own height. *)
Definition hLeft (N : Z) (heights : list F) (z x : Z) : F :=
  if 0 <? x then grid_at N heights z (x - 1) else grid_at N heights z x.
Definition hRight (N : Z) (heights : list F) (z x : Z) : F :=
  if x <? N - 1 then grid_at N heights z (x + 1) else grid_at N heights z x.
Definition hDown (N : Z) (heights : list F) (z x : Z) : F :=
  if 0 <? z then grid_at N heights (z - 1) x else grid_at N heights z x.
Definition hUp (N : Z) (heights : list F) (z x : Z) : F :=
  if z <? N - 1 then grid_at N heights (z + 1) x else grid_at N heights z x.

(** The vector handed to [normalize]. *)
Definition slope_vector (N : Z) (scale : F) (heights : list F) (z x : Z)
  : vec3 F :=
  Vec3 (fsub (hLeft N heights z x) (hRight N heights z x))
       (fmul (flit 2 0) scale)
       (fsub (hDown N heights z x) (hUp N heights z x)).

(** The vertex at lattice point [(x, z)] of a grid, as the specification
    words it: centred position, normal from clamped central differences,
    texture coordinates. *)
Definition lattice_vertex (N : Z) (scale : F) (heights : list F) (z x : Z)
  : list F :=
  let px := fmul (of_int (x - Z.quot N 2)) scale in
  let pz := fmul (of_int (z - Z.quot N 2)) scale in
  let py := grid_at N heights z x in
  let normal := glm.normalize (slope_vector N scale heights z x) in
  let u := fdiv (of_int x) (of_int (N - 1)) in
  let v := fdiv (of_int z) (of_int (N - 1)) in
  [px; py; pz; vx normal; vy normal; vz normal; u; v].

(** The normal held by a vertex record. *)
Definition normal_of (vertex : list F) : vec3 F :=
  Vec3 (nth 3 vertex (flit 0 0)) (nth 4 vertex (flit 0 0))
       (nth 5 vertex (flit 0 0)).

Definition vertex_stream (N : Z) (scale : F) (heights : list F) : list F :=
  z ← seqZ 0 N; x ← seqZ 0 N; lattice_vertex N scale heights z x.

(** The heights vector holds the sampled elevation of every lattice
    point of the rows before [z], and of the points before [x] in row
    [z]. *)
Definition filled (N : Z) (sample : Z -> Z -> F) (z x : Z) (heights : list F)
  : Prop :=
  Z.of_nat (length heights) = N * N /\
  forall z' x', 0 <= z' < N -> 0 <= x' < N ->
    z' * N + x' < z * N + x ->
    heights !! Z.to_nat (z' * N + x') = Some (sample z' x').

End TerrainSpec.

Section SamplerSpec.
Context {F : Type} `{FloatOps F}.

(** The amplitude factor of octave [i]: it starts at 1.0 and is
    multiplied by 0.5 each octave. *)
Definition octave_amplitude (i : nat) : F :=
  Nat.iter i (fun a => fmul a (flit 1 (-1))) (flit 1 0).

(** The sampling frequency of octave [i]: it starts at [freq] and is
    multiplied by 2.0 each octave. *)
Definition octave_frequency (freq : F) (i : nat) : F :=
  Nat.iter i (fun f => fmul f (flit 2 0)) freq.

(** The contribution of octave [i] at the translated point [(x, z)]. *)
Definition octave_term (x z freq : F) (i : nat) : F :=
  fmul (stb_perlin_noise3 (fmul x (octave_frequency freq i)) (flit 0 0)
          (fmul z (octave_frequency freq i)) 0 0 0)
       (octave_amplitude i).

(** The sum of the first [n] octaves, accumulated from 0.0 in order. *)
Definition octave_sum (n : nat) (x z freq : F) : F :=
  fold_left (fun acc i => fadd acc (octave_term x z freq i)) (seq 0 n)
    (flit 0 0).

(** The sampler as the specification words it. *)
Definition shaped_height (x z offsetX offsetZ amplitude freq : F) : F :=
  let sum := octave_sum 6 (fadd x offsetX) (fadd z offsetZ) freq in
  let normalized := fdiv (fadd sum (flit 1 0)) (flit 2 0) in
  fmul (powf normalized (flit 3 (-1))) amplitude.

End SamplerSpec.

(** The normal of a flat point at scale 2^k, in single precision, is the
    up vector. *)
Definition flat_up_at (k : Z) : bool :=
  match @glm.normalize _ flat32
          (Vec3 (S754_zero false)
             (SFmul B32.prec B32.emax (B32.lit 2 0) (B32.lit 1 k))
             (S754_zero false)) with
  | Vec3 (S754_zero false) (S754_finite false 8388608 (-23)) (S754_zero false)
      => true
  | _ => false
  end.

(** A height that is a number: finite or zero. *)
Definition is_number (x : spec_float) : bool :=
  match x with
  | S754_zero _ | S754_finite _ _ _ => true
  | _ => false
  end.

(** Two floats that are the same number: equal, or zeros of any sign. *)
Definition is_zero (x : spec_float) : bool :=
  match x with S754_zero _ => true | _ => false end.

Definition same_number (a b : spec_float) : Prop :=
  a = b \/ (is_zero a = true /\ is_zero b = true).

(** A noise function that reads its first coordinate as a number: at [+0]
    and at [-0] it returns the same number.  Every function computed from
    its coordinates by float additions, subtractions, multiplications and
    conversions to [int], as stb_perlin_noise3 is, has this property. *)
Definition sign_blind
    (noise : noise_fn spec_float) : Prop :=
  forall s1 s2 y z a b c,
    same_number (noise (S754_zero s1) y z a b c)
                (noise (S754_zero s2) y z a b c).

(** Mesh integrity: [N * N] vertices of eight floats, [6 (N-1)^2] indices,
    every index a vertex number, every triangle with three distinct
    corners. *)
Definition mesh_integrity {F : Type} (N : Z) (m : list F * list Z) : Prop :=
  Z.of_nat (length m.1) = 8 * (N * N) /\
  Z.of_nat (length m.2) = 6 * ((N - 1) * (N - 1)) /\
  Forall (fun i => 0 <= i < N * N) m.2 /\
  Forall distinct3 (triangles m.2).

(** The render loop's use of the generator: the same two vectors are
    handed to every call. *)
Definition regenerate {F : Type} `{FloatOps F} (buffers : list F * list Z)
    (N : Z) (scale offsetX offsetZ amplitude freq : F)
  : option (list F * list Z) :=
  generateTerrain buffers.1 buffers.2 N scale offsetX offsetZ amplitude freq.

(** ** Integer facts *)

Lemma chk_in_range n :
  Int.min_int <= n <= Int.max_int -> Int.chk n = Some n.
Proof.
  intros Hn. unfold Int.chk, Int.in_range.
  destruct (Z.leb_spec Int.min_int n); [|lia].
  destruct (Z.leb_spec n Int.max_int); [reflexivity|lia].
Qed.

Lemma chk_out_of_range n : Int.max_int < n -> Int.chk n = None.
Proof.
  intros Hn. unfold Int.chk, Int.in_range.
  destruct (Z.leb_spec n Int.max_int); [lia|].
  now rewrite andb_false_r.
Qed.

Lemma min_int_eq : Int.min_int = -2147483648.
Proof. reflexivity. Qed.

Lemma max_int_eq : Int.max_int = 2147483647.
Proof. reflexivity. Qed.

Ltac int_range := rewrite min_int_eq, max_int_eq; nia.

Lemma idx_in_grid N z x :
  0 <= N <= max_grid -> 0 <= z < N -> 0 <= x < N ->
  idx N z x = Some (z * N + x).
Proof.
  unfold max_grid. intros HN Hz Hx. unfold idx, Int.mul, Int.add.
  rewrite chk_in_range by int_range. simpl.
  apply chk_in_range. int_range.
Qed.

Lemma to_unsigned_small n : 0 <= n < 2 ^ 32 -> Int.to_unsigned n = n.
Proof. intros Hn. unfold Int.to_unsigned. now apply Z.mod_small. Qed.

Lemma reserve_sizes_ok N :
  - max_grid <= N <= max_grid -> reserve_sizes N = Some ().
Proof.
  unfold max_grid. intros HN. unfold reserve_sizes, Int.mul, Int.sub.
  rewrite (chk_in_range (N * N)) by int_range. simpl.
  rewrite (chk_in_range (N * N * 8)) by int_range. simpl.
  rewrite (chk_in_range (N - 1)) by int_range. simpl.
  rewrite (chk_in_range ((N - 1) * (N - 1))) by int_range. simpl.
  rewrite (chk_in_range ((N - 1) * (N - 1) * 6)) by int_range. reflexivity.
Qed.

(** [N * N * 8] leaves the range of [int] as soon as [N] exceeds
    [max_grid]. *)
Lemma reserve_sizes_overflow N :
  max_grid < N -> reserve_sizes N = None.
Proof.
  unfold max_grid. intros HN. unfold reserve_sizes, Int.mul.
  destruct (Int.chk (N * N)) as [nn|] eqn:E; [|reflexivity]. simpl.
  unfold Int.chk in E. destruct (Int.in_range (N * N)); [|discriminate].
  injection E as <-.
  rewrite chk_out_of_range; [reflexivity|]. rewrite max_int_eq. nia.
Qed.

(** ** Loop rules *)

(** A loop whose body always succeeds and preserves an invariant returns,
    and the invariant holds at the exit. *)
Lemma for_loop_inv {S : Type} (P : Z -> S -> Prop) (body : Z -> S -> option S) :
  forall (n : nat) (lo : Z) (s : S),
    P lo s ->
    (forall i s, lo <= i < lo + Z.of_nat n -> P i s ->
       exists s', body i s = Some s' /\ P (i + 1) s') ->
    exists s', for_loop n lo body s = Some s' /\ P (lo + Z.of_nat n) s'.
Proof.
  induction n as [|n IH]; intros lo s H0 Hstep.
  - exists s. split; [reflexivity|]. now replace (lo + Z.of_nat 0) with lo by lia.
  - destruct (Hstep lo s) as (s1 & E1 & H1); [lia|assumption|].
    simpl. rewrite E1.
    destruct (IH (lo + 1) s1 H1) as (s2 & E2 & H2).
    + intros i t Hi. apply Hstep. lia.
    + exists s2. split; [assumption|].
      now replace (lo + Z.of_nat (Datatypes.S n)) with (lo + 1 + Z.of_nat n) by lia.
Qed.

(** A loop whose body appends [g i] to the state appends them all, in
    order. *)
Lemma for_loop_append {A : Type} (g : Z -> list A)
    (body : Z -> list A -> option (list A)) :
  forall (n : nat) (lo : Z) (s : list A),
    (forall i s, lo <= i < lo + Z.of_nat n -> body i s = Some (s ++ g i)) ->
    for_loop n lo body s = Some (s ++ (seqZ lo (Z.of_nat n) ≫= g)).
Proof.
  induction n as [|n IH]; intros lo s Hbody.
  - simpl. now rewrite app_nil_r.
  - cbn [for_loop]. rewrite Hbody by lia.
    rewrite IH by (intros; apply Hbody; lia).
    rewrite (seqZ_cons lo) by lia. rewrite bind_cons, app_assoc.
    replace (Z.pred (Z.of_nat (Datatypes.S n))) with (Z.of_nat n) by lia.
    reflexivity.
Qed.

Lemma for_int_append {A : Type} (g : Z -> list A)
    (body : Z -> list A -> option (list A)) (hi : Z) (s : list A) :
  (forall i s, 0 <= i < hi -> body i s = Some (s ++ g i)) ->
  for_int hi body s = Some (s ++ (seqZ 0 hi ≫= g)).
Proof.
  intros Hbody. unfold for_int.
  rewrite (for_loop_append g) by (intros; apply Hbody; lia).
  destruct (Z.le_gt_cases 0 hi).
  - now rewrite Z2Nat.id.
  - replace (Z.to_nat hi) with 0%nat by lia. unfold seqZ.
    now replace (Z.to_nat hi) with 0%nat by lia.
Qed.

(** ** The three loop nests *)

Lemma cell_at_spec N z x (indices : list Z) :
  0 <= N <= max_grid -> 0 <= z < N - 1 -> 0 <= x < N - 1 ->
  cell_at N z x indices = Some (indices ++ cell_triangles N z x).
Proof.
  intros HN Hz Hx. unfold cell_at, Int.add.
  assert (Hm : max_grid = 16383) by reflexivity.
  rewrite idx_in_grid by lia. simpl.
  rewrite (chk_in_range (x + 1)) by int_range. simpl.
  rewrite idx_in_grid by lia. simpl.
  rewrite (chk_in_range (z + 1)) by int_range. simpl.
  rewrite !idx_in_grid by lia. simpl.
  rewrite !to_unsigned_small by nia.
  unfold push_back, cell_triangles, corner.
  now rewrite <- !app_assoc.
Qed.

Lemma build_indices_spec N (indices : list Z) :
  - max_grid <= N <= max_grid ->
  build_indices N indices = Some (indices ++ index_sequence N).
Proof.
  intros HN. unfold build_indices, Int.sub.
  assert (Hm : max_grid = 16383) by reflexivity.
  rewrite (chk_in_range (N - 1)) by int_range. simpl.
  apply (for_int_append (fun z => x ← seqZ 0 (N - 1); cell_triangles N z x)).
  intros z s Hz.
  apply (for_int_append (cell_triangles N z)).
  intros x t Hx. apply cell_at_spec; lia.
Qed.

Section LoopNests.
Context {F : Type} `{FloatOps F}.

Lemma vec_set_in_range (v : list F) (i : Z) (x : F) :
  0 <= i < Z.of_nat (length v) ->
  vec_set v i x = Some (<[Z.to_nat i := x]> v).
Proof.
  intros Hi. unfold vec_set.
  destruct (Z.leb_spec 0 i); [|lia].
  destruct (Z.ltb_spec i (Z.of_nat (length v))); [reflexivity|lia].
Qed.

Lemma vec_get_in_range (v : list F) (i : Z) (x : F) :
  0 <= i -> v !! Z.to_nat i = Some x -> vec_get v i = Some x.
Proof.
  intros Hi Hx. unfold vec_get.
  destruct (Z.leb_spec 0 i); [assumption|lia].
Qed.

Lemma fill_heights_spec N scale offsetX offsetZ amplitude freq
    (heights : list F) :
  0 <= N <= max_grid ->
  Z.of_nat (length heights) = N * N ->
  exists heights',
    fill_heights N scale offsetX offsetZ amplitude freq heights
      = Some heights' /\
    Z.of_nat (length heights') = N * N /\
    forall z x, 0 <= z < N -> 0 <= x < N ->
      heights' !! Z.to_nat (z * N + x)
        = Some (sample_at scale offsetX offsetZ amplitude freq z x).
Proof.
  intros HN Hlen.
  set (sample := sample_at scale offsetX offsetZ amplitude freq).
  unfold fill_heights, for_int.
  destruct (for_loop_inv (fun z hs => filled N sample z 0 hs)
    (fun z hs => for_loop (Z.to_nat N) 0 (fun x hs =>
       i ← idx N z x;
       vec_set hs i (sampleHeight (fmul (of_int x) scale)
         (fmul (of_int z) scale) offsetX offsetZ amplitude freq)) hs)
    (Z.to_nat N) 0 heights) as (hs & E & Hlen' & Hall).
  - split; [assumption|]. intros; nia.
  - intros z hs Hz Hinv.
    destruct (for_loop_inv (fun x hs => filled N sample z x hs)
      (fun x hs =>
         i ← idx N z x;
         vec_set hs i (sampleHeight (fmul (of_int x) scale)
           (fmul (of_int z) scale) offsetX offsetZ amplitude freq))
      (Z.to_nat N) 0 hs Hinv) as (hs' & E' & Hlen' & Hall').
    + intros x t Hx [Ht Hprev].
      rewrite idx_in_grid by lia. simpl.
      rewrite vec_set_in_range by nia.
      eexists. split; [reflexivity|]. split.
      * now rewrite length_insert.
      * intros z' x' Hz' Hx' Hlt.
        destruct (Z.eq_dec (z' * N + x') (z * N + x)) as [Heq|Hne].
        -- assert (z' = z) by nia. assert (x' = x) by nia. subst z' x'.
           rewrite list_lookup_insert_eq by nia. reflexivity.
        -- rewrite list_lookup_insert_ne by lia. apply Hprev; lia.
    + exists hs'. split; [assumption|]. split; [assumption|].
      intros z' x' Hz' Hx' Hlt. apply Hall'; nia.
  - exists hs. split; [assumption|]. split; [assumption|].
    intros z x Hz Hx. apply Hall; nia.
Qed.

(** On a grid of [N * N] entries every lookup of [vertex_at] is inside
    the vector. *)
Lemma vec_get_grid N (heights : list F) z x :
  0 <= N <= max_grid -> Z.of_nat (length heights) = N * N ->
  0 <= z < N -> 0 <= x < N ->
  vec_get heights (z * N + x) = Some (grid_at N heights z x).
Proof.
  intros HN Hlen Hz Hx.
  apply vec_get_in_range; [nia|]. unfold grid_at.
  destruct (nth_lookup_or_length heights (Z.to_nat (z * N + x)) (flit 0 0))
    as [E|E]; [exact E|nia].
Qed.

Lemma vertex_at_spec N scale (heights vertices : list F) z x :
  0 <= N <= max_grid -> Z.of_nat (length heights) = N * N ->
  0 <= z < N -> 0 <= x < N ->
  vertex_at N scale heights z x vertices
    = Some (vertices ++ lattice_vertex N scale heights z x).
Proof.
  intros HN Hlen Hz Hx.
  assert (Hm : max_grid = 16383) by reflexivity.
  assert (Hq : 0 <= Z.quot N 2 <= N).
  { rewrite Z.quot_div_nonneg by lia. split.
    - apply Z.div_pos; lia.
    - apply Z.div_le_upper_bound; lia. }
  unfold vertex_at, lattice_vertex, slope_vector, hLeft, hRight, hDown, hUp,
    Int.div, Int.sub, Int.add.
  change (2 =? 0) with false. cbv iota.
  pose proof (vec_get_grid N heights) as Hget.
  destruct (Z.ltb_spec 0 x); destruct (Z.ltb_spec 0 z);
    repeat (first [ rewrite chk_in_range by int_range
                  | rewrite idx_in_grid by lia
                  | rewrite Hget by (assumption || lia) ];
            cbn [mbind option_bind]);
    destruct (Z.ltb_spec x (N - 1)); destruct (Z.ltb_spec z (N - 1));
    repeat (first [ rewrite chk_in_range by int_range
                  | rewrite idx_in_grid by lia
                  | rewrite Hget by (assumption || lia) ];
            cbn [mbind option_bind]);
    unfold push_back; now rewrite <- !app_assoc.
Qed.

Lemma build_vertices_spec N scale (heights vertices : list F) :
  - max_grid <= N <= max_grid -> Z.of_nat (length heights) = N * N ->
  build_vertices N scale heights vertices
    = Some (vertices ++ vertex_stream N scale heights).
Proof.
  intros HN Hlen. unfold build_vertices.
  apply (for_int_append
           (fun z => x ← seqZ 0 N; lattice_vertex N scale heights z x)).
  intros z s Hz.
  apply (for_int_append (lattice_vertex N scale heights z)).
  intros x t Hx. apply vertex_at_spec; lia.
Qed.

End LoopNests.

(** ** The generator as a whole *)

Section Generator.
Context {F : Type} `{FloatOps F}.

(** Inside the range of [max_grid] the generator returns: its heights
    vector is the sampled grid, its vertices are the lattice vertices of
    that grid in row-major order, its indices the cells'. *)
Lemma generateTerrain_spec (vertices : list F) (indices : list Z) N
    scale offsetX offsetZ amplitude freq :
  - max_grid <= N <= max_grid ->
  exists heights,
    Z.of_nat (length heights) = N * N /\
    (forall z x, 0 <= z < N -> 0 <= x < N ->
      grid_at N heights z x
        = sample_at scale offsetX offsetZ amplitude freq z x) /\
    generateTerrain vertices indices N scale offsetX offsetZ amplitude freq
      = Some (vertex_stream N scale heights, index_sequence N).
Proof.
  intros HN. assert (Hm : max_grid = 16383) by reflexivity.
  unfold generateTerrain, vec_clear.
  rewrite reserve_sizes_ok by assumption. cbn [mbind option_bind].
  unfold Int.mul. rewrite chk_in_range by int_range. cbn [mbind option_bind].
  unfold vec_new. destruct (Z.leb_spec 0 (N * N)) as [_|Hneg]; [|nia].
  cbn [mbind option_bind].
  assert (Hlen0 : Z.of_nat (length (replicate (Z.to_nat (N * N)) (flit 0 0)))
                  = N * N)
    by (rewrite length_replicate; nia).
  destruct (Z.le_gt_cases 0 N) as [Hpos|Hlt].
  - destruct (fill_heights_spec N scale offsetX offsetZ amplitude freq
                (replicate (Z.to_nat (N * N)) (flit 0 0)))
      as (hs & E & Hlen & Hall); [lia|assumption|].
    rewrite E. cbn [mbind option_bind].
    rewrite build_vertices_spec by assumption. cbn [mbind option_bind].
    rewrite build_indices_spec by assumption. cbn [mbind option_bind].
    exists hs. split; [assumption|]. split; [|reflexivity].
    intros z x Hz Hx. unfold grid_at.
    apply nth_lookup_Some. apply Hall; assumption.
  - unfold fill_heights, for_int.
    replace (Z.to_nat N) with 0%nat by lia. cbn [for_loop mbind option_bind].
    rewrite build_vertices_spec by assumption. cbn [mbind option_bind].
    rewrite build_indices_spec by assumption. cbn [mbind option_bind].
    eexists. split; [exact Hlen0|]. split; [|reflexivity].
    intros; lia.
Qed.

(** Past [max_grid] the first size computation overflows. *)
Lemma generateTerrain_overflow (vertices : list F) (indices : list Z) N
    scale offsetX offsetZ amplitude freq :
  max_grid < N ->
  generateTerrain vertices indices N scale offsetX offsetZ amplitude freq
    = None.
Proof.
  intros HN. unfold generateTerrain.
  now rewrite reserve_sizes_overflow.
Qed.

End Generator.

(** ** Streams cut into fixed-width records *)

Lemma length_bind_const {A B : Type} (g : A -> list B) (w : nat) (l : list A) :
  (forall a, length (g a) = w) -> length (l ≫= g) = (w * length l)%nat.
Proof.
  intros Hg. induction l as [|a l IH]; [simpl; lia|].
  rewrite bind_cons, length_app, Hg, IH. simpl. lia.
Qed.

Lemma chunk_bind {A B : Type} (g : A -> list B) (w : nat) :
  (forall a, length (g a) = w) ->
  forall (l : list A) (k : nat) (a : A),
    l !! k = Some a -> chunk w k (l ≫= g) = g a.
Proof.
  intros Hg. unfold chunk.
  induction l as [|a0 l IH]; intros k a Hk; [discriminate|].
  rewrite bind_cons. destruct k as [|k].
  - injection Hk as ->. rewrite Nat.mul_0_r. rewrite drop_0.
    now rewrite take_app_length' by (symmetry; apply Hg).
  - simpl in Hk. replace (w * Datatypes.S k)%nat with (w + w * k)%nat by lia.
    rewrite drop_app_add' by (symmetry; apply Hg).
    now apply IH.
Qed.

(** A record of a row, inside a stream of rows. *)
Lemma chunk_row {A : Type} (w n i k : nat) (l : list A) :
  (k < n)%nat ->
  chunk w (i * n + k) l = chunk w k (chunk (w * n) i l).
Proof.
  intros Hk. unfold chunk.
  rewrite skipn_firstn_comm, take_take, drop_drop.
  replace (w `min` (w * n - w * k))%nat with w by nia.
  f_equal. f_equal. nia.
Qed.

Lemma lookup_seqZ_nat (n i : Z) :
  0 <= i < n -> seqZ 0 n !! Z.to_nat i = Some i.
Proof.
  intros Hi. rewrite lookup_seqZ_lt by lia. f_equal. lia.
Qed.

Section Streams.
Context {F : Type} `{FloatOps F}.

Lemma length_lattice_vertex N scale (heights : list F) z x :
  length (lattice_vertex N scale heights z x) = 8%nat.
Proof. reflexivity. Qed.

Lemma length_vertex_stream N scale (heights : list F) :
  length (vertex_stream N scale heights)
    = (8 * (Z.to_nat N * Z.to_nat N))%nat.
Proof.
  unfold vertex_stream.
  rewrite (length_bind_const _ (8 * Z.to_nat N)).
  - rewrite length_seqZ. lia.
  - intros z. rewrite (length_bind_const _ 8).
    + now rewrite length_seqZ.
    + intros x. apply length_lattice_vertex.
Qed.

Lemma chunk_vertex_stream N scale (heights : list F) z x :
  0 <= z < N -> 0 <= x < N ->
  chunk 8 (Z.to_nat (z * N + x)) (vertex_stream N scale heights)
    = lattice_vertex N scale heights z x.
Proof.
  intros Hz Hx. unfold vertex_stream.
  replace (Z.to_nat (z * N + x))
    with (Z.to_nat z * Z.to_nat N + Z.to_nat x)%nat by nia.
  rewrite chunk_row by lia.
  rewrite (chunk_bind _ (8 * Z.to_nat N)) with (a := z).
  - apply (chunk_bind _ 8).
    + intros a. apply length_lattice_vertex.
    + now apply lookup_seqZ_nat.
  - intros a. rewrite (length_bind_const _ 8).
    + now rewrite length_seqZ.
    + intros b. apply length_lattice_vertex.
  - now apply lookup_seqZ_nat.
Qed.

End Streams.

(** ** The index stream *)

Lemma length_index_sequence N :
  length (index_sequence N) = (6 * (Z.to_nat (N - 1) * Z.to_nat (N - 1)))%nat.
Proof.
  unfold index_sequence.
  rewrite (length_bind_const _ (6 * Z.to_nat (N - 1))).
  - rewrite length_seqZ. lia.
  - intros z. rewrite (length_bind_const _ 6).
    + now rewrite length_seqZ.
    + reflexivity.
Qed.

Lemma Forall_index_sequence (P : Z -> Prop) N :
  (forall z x, 0 <= z < N - 1 -> 0 <= x < N - 1 ->
     Forall P (cell_triangles N z x)) ->
  Forall P (index_sequence N).
Proof.
  intros Hcell. unfold index_sequence.
  apply Forall_bind, Forall_forall. intros z Hz.
  apply Forall_bind, Forall_forall. intros x Hx.
  apply elem_of_seqZ in Hz, Hx. apply Hcell; lia.
Qed.

Lemma index_in_range N :
  2 <= N -> Forall (fun i => 0 <= i < N * N) (index_sequence N).
Proof.
  intros HN. apply Forall_index_sequence. intros z x Hz Hx.
  unfold cell_triangles, corner. repeat constructor; nia.
Qed.

Lemma triangles_app (l1 l2 : list Z) (k : nat) :
  length l1 = (3 * k)%nat ->
  triangles (l1 ++ l2) = triangles l1 ++ triangles l2.
Proof.
  revert l1. induction k as [|k IH]; intros l1 Hlen.
  - destruct l1; [reflexivity|simpl in Hlen; lia].
  - destruct l1 as [|a [|b [|c l1]]]; simpl in Hlen; try lia.
    simpl. f_equal. apply IH. lia.
Qed.

Lemma whole_distinct_bind {A : Type} (g : A -> list Z) (l : list A) :
  Forall (fun a => whole_distinct (g a)) l -> whole_distinct (l ≫= g).
Proof.
  induction 1 as [|a l [[k Hk] Ha] _ [[k' Hk'] IH]].
  - split; [exists 0%nat; reflexivity|constructor].
  - rewrite bind_cons. split.
    + exists (k + k')%nat. rewrite length_app, Hk, Hk'. lia.
    + rewrite (triangles_app _ _ k Hk). now apply Forall_app.
Qed.

Lemma cell_distinct N z x :
  2 <= N -> whole_distinct (cell_triangles N z x).
Proof.
  intros HN. split; [exists 2%nat; reflexivity|].
  unfold cell_triangles, corner. simpl.
  repeat constructor; simpl; nia.
Qed.

Lemma index_sequence_distinct N :
  2 <= N -> Forall distinct3 (triangles (index_sequence N)).
Proof.
  intros HN. unfold index_sequence.
  apply whole_distinct_bind, Forall_forall. intros z _.
  apply whole_distinct_bind, Forall_forall. intros x _.
  now apply cell_distinct.
Qed.

Lemma seqZ_nonpos (m n : Z) : n <= 0 -> seqZ m n = [].
Proof.
  intros Hn. unfold seqZ. now replace (Z.to_nat n) with 0%nat by lia.
Qed.

Lemma index_sequence_degenerate N : N < 2 -> index_sequence N = [].
Proof.
  intros HN. unfold index_sequence. now rewrite seqZ_nonpos by lia.
Qed.

(** ** Mesh integrity *)

(** C1 (as amended): for every N with 2 <= N <= 16383 and any scale,
    offsets, amplitude and frequency, generateTerrain returns a mesh with
    exactly N^2 vertices of 8 floats, exactly 6 (N-1)^2 indices, every
    index in [0, N^2), and the three indices of every triangle pairwise
    distinct. *)
Theorem generateTerrain_mesh_integrity {F : Type} `{FloatOps F}
    (vertices : list F) (indices : list Z) (N : Z)
    (scale offsetX offsetZ amplitude freq : F) :
  2 <= N <= max_grid ->
  exists m,
    generateTerrain vertices indices N scale offsetX offsetZ amplitude freq
      = Some m /\
    mesh_integrity N m.
Proof.
  intros HN.
  destruct (generateTerrain_spec vertices indices N scale offsetX offsetZ
              amplitude freq) as (hs & Hlen & _ & E); [lia|].
  eexists. split; [exact E|]. unfold mesh_integrity. cbn [fst snd].
  rewrite length_vertex_stream, length_index_sequence.
  repeat split.
  - nia.
  - nia.
  - apply index_in_range. lia.
  - apply index_sequence_distinct. lia.
Qed.

Lemma generateTerrain_mesh_integrity_witness :
  2 <= GRID_N <= max_grid /\
  exists m,
    @generateTerrain _ flat32 [] [] GRID_N
      terrainScale terrainOffsetX terrainOffsetZ terrainAmplitude terrainFreq
      = Some m /\
    mesh_integrity GRID_N m.
Proof.
  assert (HN : 2 <= GRID_N <= max_grid) by (unfold GRID_N, max_grid; lia).
  split; [exact HN|]. now apply generateTerrain_mesh_integrity.
Defined.

(** C1, as stated, fails at N = 16384: [N * N * 8] is 2^31, outside [int],
    and the call has no defined result. *)
Lemma generateTerrain_16384_undefined :
  2 <= 16384 /\
  @generateTerrain _ flat32 [] [] 16384
    terrainScale terrainOffsetX terrainOffsetZ terrainAmplitude terrainFreq
    = None.
Proof.
  split; [lia|]. apply generateTerrain_overflow. unfold max_grid. lia.
Qed.

(** ** The triangulation *)

(** C5 (as amended): for every N with 2 <= N <= 16383, generateTerrain
    emits, for each cell (x, z) with x, z in [0, N-2] taken in row-major
    order, exactly the triangles (i0, i2, i1) and (i1, i2, i3); the index
    sequence is the same for every scale, offset, amplitude, frequency and
    previous buffer contents. *)
Theorem generateTerrain_index_sequence {F : Type} `{FloatOps F}
    (vertices vertices' : list F) (indices indices' : list Z) (N : Z)
    (scale offsetX offsetZ amplitude freq : F)
    (scale' offsetX' offsetZ' amplitude' freq' : F) :
  2 <= N <= max_grid ->
  snd <$> generateTerrain vertices indices N scale offsetX offsetZ
            amplitude freq
    = Some (index_sequence N) /\
  snd <$> generateTerrain vertices' indices' N scale' offsetX' offsetZ'
            amplitude' freq'
    = snd <$> generateTerrain vertices indices N scale offsetX offsetZ
                amplitude freq.
Proof.
  intros HN.
  destruct (generateTerrain_spec vertices indices N scale offsetX offsetZ
              amplitude freq) as (hs & _ & _ & E); [lia|].
  destruct (generateTerrain_spec vertices' indices' N scale' offsetX' offsetZ'
              amplitude' freq') as (hs' & _ & _ & E'); [lia|].
  rewrite E, E'. split; reflexivity.
Qed.

Lemma generateTerrain_index_sequence_witness :
  2 <= 3 <= max_grid /\
  snd <$> @generateTerrain _ flat32 [] [] 3
            terrainScale terrainOffsetX terrainOffsetZ
            terrainAmplitude terrainFreq
    = Some (index_sequence 3) /\
  snd <$> @generateTerrain _ flat32 [B32.lit 1 0] [7] 3
            (B32.lit 1 0) (B32.lit 100 0) terrainOffsetZ
            (B32.lit 10 0) (B32.lit 1 (-3))
    = snd <$> @generateTerrain _ flat32 [] [] 3
                terrainScale terrainOffsetX terrainOffsetZ
                terrainAmplitude terrainFreq.
Proof.
  assert (HN : 2 <= 3 <= max_grid) by (unfold max_grid; lia).
  split; [exact HN|]. now apply generateTerrain_index_sequence.
Defined.

(** C5, as stated, fails at N = 20000: no index sequence is produced. *)
Lemma index_sequence_20000_undefined :
  2 <= 20000 /\
  snd <$> @generateTerrain _ flat32 [] [] 20000
            terrainScale terrainOffsetX terrainOffsetZ
            terrainAmplitude terrainFreq
    = None.
Proof.
  split; [lia|]. rewrite generateTerrain_overflow; [reflexivity|].
  unfold max_grid. lia.
Qed.

(** ** The vertex stream *)

(** C6 (as amended): for every N with 2 <= N <= 16383, the vertex at
    lattice point (x, z), the eight floats from offset 8 (z N + x), has
    position ((x - N/2) scale, grid[z N + x], (z - N/2) scale), normal
    normalize (hLeft - hRight, 2 scale, hDown - hUp) with the neighbours
    clamped at the edges, texture coordinates (x / (N-1), z / (N-1)) that
    do not mention the grid; the grid entry is the height sampled at
    (x scale, z scale). *)
Theorem generateTerrain_lattice_vertex {F : Type} `{FloatOps F}
    (vertices : list F) (indices : list Z) (N : Z)
    (scale offsetX offsetZ amplitude freq : F) :
  2 <= N <= max_grid ->
  exists heights vertices' indices',
    generateTerrain vertices indices N scale offsetX offsetZ amplitude freq
      = Some (vertices', indices') /\
    Z.of_nat (length heights) = N * N /\
    forall z x, 0 <= z < N -> 0 <= x < N ->
      grid_at N heights z x
        = sampleHeight (fmul (of_int x) scale) (fmul (of_int z) scale)
            offsetX offsetZ amplitude freq /\
      chunk 8 (Z.to_nat (z * N + x)) vertices'
        = let px := fmul (of_int (x - Z.quot N 2)) scale in
          let pz := fmul (of_int (z - Z.quot N 2)) scale in
          let py := grid_at N heights z x in
          let normal :=
            glm.normalize
              (Vec3 (fsub (hLeft N heights z x) (hRight N heights z x))
                    (fmul (flit 2 0) scale)
                    (fsub (hDown N heights z x) (hUp N heights z x))) in
          let u := fdiv (of_int x) (of_int (N - 1)) in
          let v := fdiv (of_int z) (of_int (N - 1)) in
          [px; py; pz; vx normal; vy normal; vz normal; u; v].
Proof.
  intros HN.
  destruct (generateTerrain_spec vertices indices N scale offsetX offsetZ
              amplitude freq) as (hs & Hlen & Hgrid & E); [lia|].
  exists hs, (vertex_stream N scale hs), (index_sequence N).
  split; [exact E|]. split; [exact Hlen|].
  intros z x Hz Hx. split.
  - now apply Hgrid.
  - rewrite chunk_vertex_stream by assumption. reflexivity.
Qed.

Lemma generateTerrain_lattice_vertex_witness :
  2 <= 2 <= max_grid /\
  exists heights vertices' indices',
    @generateTerrain _ flat32 [] [] 2
      terrainScale terrainOffsetX terrainOffsetZ terrainAmplitude terrainFreq
      = Some (vertices', indices') /\
    Z.of_nat (length heights) = 2 * 2 /\
    forall z x, 0 <= z < 2 -> 0 <= x < 2 ->
      @grid_at _ flat32 2 heights z x
        = @sampleHeight _ flat32
            (@fmul _ flat32 (@of_int _ flat32 x) terrainScale)
            (@fmul _ flat32 (@of_int _ flat32 z) terrainScale)
            terrainOffsetX terrainOffsetZ terrainAmplitude terrainFreq /\
      chunk 8 (Z.to_nat (z * 2 + x)) vertices'
        = @lattice_vertex _ flat32 2 terrainScale heights z x.
Proof.
  assert (HN : 2 <= 2 <= max_grid) by (unfold max_grid; lia).
  split; [exact HN|]. now apply generateTerrain_lattice_vertex.
Defined.

(** C6, as stated, fails at N = 46341: already [N * N] is outside [int]
    and no vertex is produced. *)
Lemma lattice_vertex_46341_undefined :
  2 <= 46341 /\
  @generateTerrain _ flat32 [] [] 46341
    terrainScale terrainOffsetX terrainOffsetZ terrainAmplitude terrainFreq
    = None.
Proof.
  split; [lia|]. apply generateTerrain_overflow. unfold max_grid. lia.
Qed.

(** ** Configurations outside the precondition *)

(** C8 (as amended): generateTerrain checks nothing at its boundary.  For
    every N from -16383 to 16383 and every scale, offset, amplitude and
    frequency (finite or not) it returns a mesh; when N < 2 that mesh has
    no triangle, and max (N, 0)^2 vertices. *)
Theorem generateTerrain_no_precondition_check {F : Type} `{FloatOps F}
    (vertices : list F) (indices : list Z) (N : Z)
    (scale offsetX offsetZ amplitude freq : F) :
  - max_grid <= N <= max_grid ->
  exists vertices' indices',
    generateTerrain vertices indices N scale offsetX offsetZ amplitude freq
      = Some (vertices', indices') /\
    (N < 2 ->
       indices' = [] /\
       length vertices' = (8 * (Z.to_nat N * Z.to_nat N))%nat).
Proof.
  intros HN.
  destruct (generateTerrain_spec vertices indices N scale offsetX offsetZ
              amplitude freq) as (hs & _ & _ & E); [lia|].
  exists (vertex_stream N scale hs), (index_sequence N).
  split; [exact E|]. intros Hsmall. split.
  - now apply index_sequence_degenerate.
  - apply length_vertex_stream.
Qed.

Lemma generateTerrain_no_precondition_check_witness :
  - max_grid <= 0 <= max_grid /\
  exists vertices' indices',
    @generateTerrain _ flat32 [] [] 0
      terrainScale terrainOffsetX terrainOffsetZ S754_nan terrainFreq
      = Some (vertices', indices') /\
    (0 < 2 ->
       indices' = [] /\
       length vertices' = (8 * (Z.to_nat 0 * Z.to_nat 0))%nat).
Proof.
  assert (HN : - max_grid <= 0 <= max_grid) by (unfold max_grid; lia).
  split; [exact HN|]. now apply generateTerrain_no_precondition_check.
Defined.

(** C8, as stated, fails: with N = 1 the call returns a mesh of one vertex
    and no triangle, and with a NaN amplitude and an infinite frequency it
    returns a mesh as well; nothing is rejected. *)
Lemma generateTerrain_accepts_bad_configuration :
  snd <$> @generateTerrain _ flat32 [] [] 1
            terrainScale terrainOffsetX terrainOffsetZ
            terrainAmplitude terrainFreq
    = Some [] /\
  snd <$> @generateTerrain _ flat32 [] [] 2
            terrainScale terrainOffsetX terrainOffsetZ
            S754_nan (S754_infinity false)
    = Some [0; 2; 1; 1; 2; 3].
Proof. split; vm_compute; reflexivity. Qed.

(** ** Independence from the buffers and determinism *)

Lemma generateTerrain_clears_first {F : Type} `{FloatOps F}
    (vertices1 vertices2 : list F) (indices1 indices2 : list Z) (N : Z)
    (scale offsetX offsetZ amplitude freq : F) :
  generateTerrain vertices1 indices1 N scale offsetX offsetZ amplitude freq
  = generateTerrain vertices2 indices2 N scale offsetX offsetZ amplitude freq.
Proof. unfold generateTerrain, vec_clear. reflexivity. Qed.

(** C10: generateTerrain clears both vectors first, so its result does not
    depend on what they held. *)
Theorem generateTerrain_ignores_buffers {F : Type} `{FloatOps F}
    (vertices1 vertices2 : list F) (indices1 indices2 : list Z) (N : Z)
    (scale offsetX offsetZ amplitude freq : F) :
  generateTerrain vertices1 indices1 N scale offsetX offsetZ amplitude freq
  = generateTerrain vertices2 indices2 N scale offsetX offsetZ amplitude freq.
Proof. apply generateTerrain_clears_first. Qed.


(** ** The height sampler *)

Section Sampler.
Context {F : Type} `{FloatOps F}.

(** The loop, entered at octave [k] with the variables of that octave,
    adds the terms of octaves [k .. k + n - 1] to [height] in order. *)
Lemma octave_loop_fold (x z freq : F) :
  forall (n k : nat) (height : F),
    octave_loop n (flit 1 (-1)) (flit 2 0) x z height
      (octave_amplitude k) (octave_frequency freq k)
    = fold_left (fun acc i => fadd acc (octave_term x z freq i))
        (seq k n) height.
Proof.
  induction n as [|n IH]; intros k height; [reflexivity|].
  cbn [octave_loop seq fold_left].
  change (fmul (octave_amplitude k) (flit 1 (-1)))
    with (octave_amplitude (S k)).
  change (fmul (octave_frequency freq k) (flit 2 0))
    with (octave_frequency freq (S k)).
  rewrite IH. reflexivity.
Qed.

(** At six octaves, from octave 0, this is the sampler. *)
Lemma sampleHeight_unfold (x z offsetX offsetZ amplitude freq : F) :
  sampleHeight x z offsetX offsetZ amplitude freq
  = shaped_height x z offsetX offsetZ amplitude freq.
Proof.
  unfold sampleHeight, shaped_height, octave_sum.
  rewrite <- (octave_loop_fold (fadd x offsetX) (fadd z offsetZ) freq 6 0).
  reflexivity.
Qed.

End Sampler.

(** C2: sampleHeight translates (x, z) by the offset, sums exactly 6
    octaves of noise taken at (x f, 0, z f), the amplitude factor starting
    at 1.0 and halved each octave, the frequency starting at freq and
    doubled each octave, maps the sum through (sum + 1) / 2, raises it to
    the power 1.5 and multiplies by amplitude. *)
Theorem sampleHeight_shaped_octaves {F : Type} `{FloatOps F}
    (x z offsetX offsetZ amplitude freq : F) :
  sampleHeight x z offsetX offsetZ amplitude freq
  = shaped_height x z offsetX offsetZ amplitude freq.
Proof. apply sampleHeight_unfold. Qed.

(** ** Offset translation, in single precision *)

Lemma spec_float_eq_dec (a b : spec_float) : {a = b} + {a <> b}.
Proof.
  decide equality; first [apply Z.eq_dec | apply Pos.eq_dec | apply bool_dec].
Qed.

Section Translation.
Variable noise :
  noise_fn spec_float.
Variable pw : spec_float -> spec_float -> spec_float.
Hypothesis noise_blind : sign_blind noise.

#[local] Instance translation_ops : FloatOps spec_float := binary32 noise pw.

(** Adding [+0] changes nothing but the sign of [-0]. *)
Lemma fadd_zero_r (s : spec_float) :
  s <> S754_zero true -> fadd s (flit 0 0) = s.
Proof.
  intros Hs. destruct s as [[|]| | |]; try reflexivity. now elim Hs.
Qed.

(** The sign of a zero does not survive as anything else through a product
    or a sum. *)
Lemma same_number_refl (a : spec_float) : same_number a a.
Proof. now left. Qed.

Lemma same_number_mul (a b c : spec_float) :
  same_number a b -> same_number (fmul a c) (fmul b c).
Proof.
  intros [->|[Ha Hb]]; [now left|].
  destruct a; try discriminate. destruct b; try discriminate.
  destruct c; cbn; first [now left | now right].
Qed.

Lemma same_number_add (h h' p p' : spec_float) :
  same_number h h' -> same_number p p' ->
  same_number (fadd h p) (fadd h' p').
Proof.
  intros [->|[Hh Hh']] [->|[Hp Hp']]; [now left| | |].
  - destruct p; try discriminate. destruct p'; try discriminate.
    destruct h' as [[|]| | |]; destruct s, s0; cbn;
      first [now left | now right].
  - destruct h; try discriminate. destruct h'; try discriminate.
    destruct p' as [[|]| | |]; destruct s, s0; cbn;
      first [now left | now right].
  - destruct h; try discriminate. destruct h'; try discriminate.
    destruct p; try discriminate. destruct p'; try discriminate.
    destruct s, s0, s1, s2; cbn; now right.
Qed.

(** A zero times the frequency is a zero or NaN, whatever the zero's
    sign, and the noise there is the same number. *)
Lemma noise_at_zero (f y z : spec_float) :
  same_number (noise (fmul (S754_zero true) f) y z 0 0 0)
              (noise (fmul (S754_zero false) f) y z 0 0 0).
Proof.
  destruct f as [sf|sf| |sf m e]; cbn;
    first [apply same_number_refl | apply noise_blind].
Qed.

Lemma octave_loop_zero_sign (p l z : spec_float) :
  forall (n : nat) (height height' amp f : spec_float),
    same_number height height' ->
    same_number (octave_loop n p l (S754_zero true) z height amp f)
                (octave_loop n p l (S754_zero false) z height' amp f).
Proof.
  induction n as [|n IH]; intros height height' amp f Hh; [exact Hh|].
  cbn [octave_loop]. apply IH.
  apply same_number_add; [exact Hh|].
  apply same_number_mul.
  change (stb_perlin_noise3 ?a ?b ?c 0 0 0) with (noise a b c 0 0 0).
  apply noise_at_zero.
Qed.

(** Adding 1.0 forgets the sign of a zero. *)
Lemma same_number_add_one (a b : spec_float) :
  same_number a b -> fadd a (flit 1 0) = fadd b (flit 1 0).
Proof.
  intros [->|[Ha Hb]]; [reflexivity|].
  destruct a; try discriminate. destruct b; try discriminate. reflexivity.
Qed.

(** Where [x + d] is not [-0], adding [+0] to it is the identity. *)
Lemma sampleHeight_translation_regular (x z d amplitude freq : spec_float) :
  fadd x d <> S754_zero true ->
  sampleHeight x z d (flit 0 0) amplitude freq
  = sampleHeight (fadd x d) z (flit 0 0) (flit 0 0) amplitude freq.
Proof.
  intros E. unfold sampleHeight. now rewrite (fadd_zero_r (fadd x d)).
Qed.

(** Where [x + d] is [-0], the second call samples at [+0]. *)
Lemma sampleHeight_translation_negative_zero
    (x z d amplitude freq : spec_float) :
  fadd x d = S754_zero true ->
  sampleHeight x z d (flit 0 0) amplitude freq
  = sampleHeight (fadd x d) z (flit 0 0) (flit 0 0) amplitude freq.
Proof.
  intros E. unfold sampleHeight. rewrite E.
  change (fadd (S754_zero true) (flit 0 0)) with (S754_zero false).
  rewrite (same_number_add_one _ _
             (octave_loop_zero_sign (flit 1 (-1)) (flit 2 0) (fadd z (flit 0 0))
                6 (flit 0 0) (flit 0 0) (flit 1 0) freq
                (same_number_refl _))).
  reflexivity.
Qed.

End Translation.

(** C4: in single precision, for every x, z, d, amplitude and frequency,
    sampleHeight (x, z, d, 0, amplitude, freq) equals
    sampleHeight (x + d, z, 0, 0, amplitude, freq).  Adding 0.0 changes a
    float only when it is -0; for that one value of x + d the noise
    function is assumed to return the same number at a zero coordinate of
    either sign. *)
Theorem sampleHeight_offset_translation
    (noise : noise_fn spec_float)
    (pw : spec_float -> spec_float -> spec_float)
    (x z d amplitude freq : spec_float) :
  (SFadd B32.prec B32.emax x d = S754_zero true -> sign_blind noise) ->
  @sampleHeight _ (binary32 noise pw) x z d (B32.lit 0 0) amplitude freq
  = @sampleHeight _ (binary32 noise pw) (SFadd B32.prec B32.emax x d) z
      (B32.lit 0 0) (B32.lit 0 0) amplitude freq.
Proof.
  intros Hblind.
  destruct (spec_float_eq_dec (SFadd B32.prec B32.emax x d) (S754_zero true))
    as [E|E].
  - exact (sampleHeight_translation_negative_zero noise pw (Hblind E)
             x z d amplitude freq E).
  - exact (sampleHeight_translation_regular noise pw x z d amplitude freq E).
Qed.

Lemma sign_blind_const (c : spec_float) : sign_blind (const_noise c).
Proof. intros s1 s2 y z a b c'. now left. Qed.

Lemma sampleHeight_offset_translation_witness :
  sign_blind (const_noise (B32.lit 1 (-2))) /\
  @sampleHeight _ (level32 (B32.lit 1 (-2))) (S754_zero true) (B32.lit 3 0)
    (S754_zero true) (B32.lit 0 0) terrainAmplitude terrainFreq
  = @sampleHeight _ (level32 (B32.lit 1 (-2)))
      (SFadd B32.prec B32.emax (S754_zero true) (S754_zero true)) (B32.lit 3 0)
      (B32.lit 0 0) (B32.lit 0 0) terrainAmplitude terrainFreq.
Proof.
  split; [apply sign_blind_const|].
  apply sampleHeight_offset_translation. intros _. apply sign_blind_const.
Defined.

(** Away from -0 nothing is assumed of the noise: here x = 1.5, d = 2. *)
Lemma sampleHeight_offset_translation_regular_example
    (noise : noise_fn spec_float)
    (pw : spec_float -> spec_float -> spec_float)
    (z amplitude freq : spec_float) :
  @sampleHeight _ (binary32 noise pw) (B32.lit 3 (-1)) z (B32.lit 2 0)
    (B32.lit 0 0) amplitude freq
  = @sampleHeight _ (binary32 noise pw) (B32.lit 7 (-1)) z
      (B32.lit 0 0) (B32.lit 0 0) amplitude freq.
Proof.
  apply (sampleHeight_translation_regular noise pw). discriminate.
Qed.

(** In exact arithmetic the translation needs no assumption. *)
Lemma sampleHeight_translation_ideal (noise : noise_fn R)
    (x z d amplitude freq : R) :
  @sampleHeight _ (ideal noise) x z d (Ideal.lit 0 0) amplitude freq
  = @sampleHeight _ (ideal noise) (x + d)%R z (Ideal.lit 0 0) (Ideal.lit 0 0)
      amplitude freq.
Proof.
  unfold sampleHeight. cbn [fadd ideal flit].
  replace (Ideal.lit 0 0) with 0%R by (unfold Ideal.lit; simpl; lra).
  now rewrite !Rplus_0_r.
Qed.

(** ** The range of the sampled heights, in exact arithmetic *)

Lemma ideal_lit_0 : Ideal.lit 0 0 = 0%R.
Proof. unfold Ideal.lit. simpl. lra. Qed.

Lemma ideal_lit_1 : Ideal.lit 1 0 = 1%R.
Proof. unfold Ideal.lit. simpl. lra. Qed.

Lemma ideal_lit_2 : Ideal.lit 2 0 = 2%R.
Proof. unfold Ideal.lit. simpl. lra. Qed.

Lemma ideal_lit_half : Ideal.lit 1 (-1) = (/ 2)%R.
Proof. unfold Ideal.lit. simpl. lra. Qed.

Lemma ideal_lit_3_halves : Ideal.lit 3 (-1) = (3 / 2)%R.
Proof. unfold Ideal.lit. simpl. lra. Qed.

(** [c = b^(3/2)] squares to [b^3]. *)
Lemma Rpower_3_halves_sqr (b : R) :
  (0 < b)%R -> (Rpower b (3 / 2) * Rpower b (3 / 2) = b * b * b)%R.
Proof.
  intros Hb. rewrite <- Rpower_plus.
  replace (3 / 2 + 3 / 2)%R with (INR 3) by (simpl; lra).
  rewrite Rpower_pow by assumption. simpl. lra.
Qed.

Lemma Rpower_pos (b e : R) : (0 < Rpower b e)%R.
Proof. unfold Rpower. apply exp_pos. Qed.

(** The shaping curve on a non-negative base below 95/64. *)
Lemma ideal_pow_bounds (b : R) :
  (0 <= b <= 95 / 64)%R -> (0 <= Ideal.pow b (3 / 2) <= 181 / 100)%R.
Proof.
  intros [Hlo Hhi]. unfold Ideal.pow.
  destruct (Rle_dec b 0) as [_|Hpos]; [lra|].
  assert (Hb : (0 < b)%R) by lra.
  pose proof (Rpower_pos b (3 / 2)) as Hc.
  pose proof (Rpower_3_halves_sqr b Hb) as Hsq.
  split; [lra|].
  assert (Hcube : (b * b * b <= 95 / 64 * (95 / 64) * (95 / 64))%R).
  { assert (b * b <= 95 / 64 * (95 / 64))%R by nra. nra. }
  nra.
Qed.

Section HeightRange.
Variable noise : noise_fn R.
Hypothesis noise_range :
  forall x y z a b c, (-1 <= noise x y z a b c <= 1)%R.

#[local] Instance range_ops : FloatOps R := ideal noise.

Lemma octave_amplitude_ideal :
  octave_amplitude 0 = 1%R /\ octave_amplitude 1 = (/ 2)%R /\
  octave_amplitude 2 = (/ 4)%R /\ octave_amplitude 3 = (/ 8)%R /\
  octave_amplitude 4 = (/ 16)%R /\ octave_amplitude 5 = (/ 32)%R.
Proof.
  unfold octave_amplitude. simpl Nat.iter.
  cbn [fmul flit range_ops ideal].
  rewrite ideal_lit_1, ideal_lit_half. repeat split; lra.
Qed.

(** Six octaves with factors 1, 1/2, ..., 1/32 cannot exceed 63/32. *)
Lemma octave_sum_range (x z freq : R) :
  (- (63 / 32) <= octave_sum 6 x z freq <= 63 / 32)%R.
Proof.
  unfold octave_sum, octave_term.
  cbn [seq fold_left fmul fadd flit stb_perlin_noise3 range_ops ideal].
  destruct octave_amplitude_ideal as (-> & -> & -> & -> & -> & ->).
  rewrite ideal_lit_0.
  pose proof (noise_range (x * octave_frequency freq 0) 0
                (z * octave_frequency freq 0) 0 0 0) as H0.
  pose proof (noise_range (x * octave_frequency freq 1) 0
                (z * octave_frequency freq 1) 0 0 0) as H1.
  pose proof (noise_range (x * octave_frequency freq 2) 0
                (z * octave_frequency freq 2) 0 0 0) as H2.
  pose proof (noise_range (x * octave_frequency freq 3) 0
                (z * octave_frequency freq 3) 0 0 0) as H3.
  pose proof (noise_range (x * octave_frequency freq 4) 0
                (z * octave_frequency freq 4) 0 0 0) as H4.
  pose proof (noise_range (x * octave_frequency freq 5) 0
                (z * octave_frequency freq 5) 0 0 0) as H5.
  lra.
Qed.

Lemma sampleHeight_range (x z offsetX offsetZ amplitude freq : R) :
  (0 <= amplitude)%R ->
  (-1 <= octave_sum 6 (x + offsetX) (z + offsetZ) freq)%R ->
  (0 <= sampleHeight x z offsetX offsetZ amplitude freq
     <= 181 / 100 * amplitude)%R.
Proof.
  intros HA Hsum. rewrite sampleHeight_unfold. unfold shaped_height.
  cbn [fmul fadd fdiv flit powf range_ops ideal].
  rewrite ideal_lit_1, ideal_lit_2, ideal_lit_3_halves.
  pose proof (octave_sum_range (x + offsetX)%R (z + offsetZ)%R freq)
    as [_ Hhi].
  pose proof (ideal_pow_bounds
    ((octave_sum 6 (x + offsetX) (z + offsetZ) freq + 1) / 2)%R) as Hp.
  cbn [fadd range_ops ideal] in Hsum, Hhi, Hp.
  assert (Hb : (0 <= (octave_sum 6 (x + offsetX) (z + offsetZ) freq + 1) / 2
                  <= 95 / 64)%R) by lra.
  specialize (Hp Hb). nra.
Qed.

End HeightRange.


Lemma null_noise_range :
  forall x y z a b c, (-1 <= null_noise x y z a b c <= 1)%R.
Proof. intros. unfold null_noise. lra. Qed.

Lemma unit_noise_range :
  forall x y z a b c, (-1 <= unit_noise x y z a b c <= 1)%R.
Proof. intros. unfold unit_noise. lra. Qed.

Lemma octave_sum_null (x z freq : R) :
  @octave_sum _ (ideal null_noise) 6 x z freq = 0%R.
Proof.
  unfold octave_sum, octave_term.
  cbn [seq fold_left fmul fadd flit stb_perlin_noise3 ideal].
  unfold null_noise. rewrite ideal_lit_0. lra.
Qed.

Lemma octave_sum_unit (x z freq : R) :
  @octave_sum _ (ideal unit_noise) 6 x z freq = (63 / 32)%R.
Proof.
  unfold octave_sum, octave_term.
  cbn [seq fold_left fmul fadd flit stb_perlin_noise3 ideal].
  destruct (octave_amplitude_ideal unit_noise) as (E0 & E1 & E2 & E3 & E4 & E5).
  unfold range_ops in *. rewrite E0, E1, E2, E3, E4, E5.
  unfold unit_noise. rewrite ideal_lit_0. lra.
Qed.



(** The same run in single precision: whatever the power function, its
    base is exactly 95/64 = 1.484375; with [x * sqrt x] for the power and
    amplitude 1 the height is above 1.2. *)
Lemma sampleHeight_unit_noise_binary32
    (pw : spec_float -> spec_float -> spec_float)
    (x z offsetX offsetZ amplitude freq : spec_float) :
  @sampleHeight _ (binary32 (const_noise (B32.lit 1 0)) pw)
    x z offsetX offsetZ amplitude freq
  = SFmul B32.prec B32.emax (pw (B32.lit 95 (-6)) (B32.lit 3 (-1))) amplitude.
Proof. reflexivity. Qed.

Lemma sampleHeight_unit_noise_above_binary32 :
  SFltb (SFmul B32.prec B32.emax (B32.lit 12 0)
           (SFdiv B32.prec B32.emax (B32.lit 1 0) (B32.lit 10 0)))
        (@sampleHeight _ (level32 (B32.lit 1 0)) (B32.lit 0 0) (B32.lit 0 0)
           (B32.lit 0 0) (B32.lit 0 0) (B32.lit 1 0) terrainFreq)
  = true.
Proof. vm_compute. reflexivity. Qed.

(** ** Normals *)

Section IdealNormals.
Variable noise : noise_fn R.

#[local] Instance normal_ops : FloatOps R := ideal noise.

Lemma dot_self_pos (a b c : R) :
  (0 < b)%R -> (0 < glm.dot (Vec3 a b c) (Vec3 a b c))%R.
Proof.
  intros Hb. unfold glm.dot. cbn [vx vy vz fadd fmul normal_ops ideal]. nra.
Qed.

(** A vector with a positive y component is normalized to unit length. *)
Lemma normalize_unit_length (a b c : R) :
  (0 < b)%R -> glm.length (glm.normalize (Vec3 a b c)) = 1%R.
Proof.
  intros Hb. pose proof (dot_self_pos a b c Hb) as Hd.
  unfold glm.length, glm.normalize, glm.scale_vec, glm.inversesqrt.
  set (d := glm.dot (Vec3 a b c) (Vec3 a b c)) in *.
  assert (Hs : (0 < sqrt d)%R) by now apply sqrt_lt_R0.
  assert (Hss : (sqrt d * sqrt d = d)%R) by (apply sqrt_sqrt; lra).
  unfold glm.dot. cbn [vx vy vz fadd fmul fdiv fsqrt flit normal_ops ideal].
  rewrite ideal_lit_1.
  replace (a * (1 / sqrt d) * (a * (1 / sqrt d))
           + b * (1 / sqrt d) * (b * (1 / sqrt d))
           + c * (1 / sqrt d) * (c * (1 / sqrt d)))%R with 1%R.
  - apply sqrt_1.
  - assert (Hdd : d = (a * a + b * b + c * c)%R) by reflexivity.
    rewrite <- Hss in Hdd. field_simplify; [|lra]. 
    replace (sqrt d ^ 2)%R with (sqrt d * sqrt d)%R by ring.
    rewrite Hdd. field. nra.
Qed.

(** With no slope the normal is the up vector. *)
Lemma normalize_flat (b : R) :
  (0 < b)%R -> glm.normalize (Vec3 0%R b 0%R) = Vec3 0%R 1%R 0%R.
Proof.
  intros Hb.
  unfold glm.normalize, glm.scale_vec, glm.inversesqrt, glm.dot.
  cbn [vx vy vz fadd fmul fdiv fsqrt flit normal_ops ideal].
  rewrite ideal_lit_1.
  replace (0 * 0 + b * b + 0 * 0)%R with (b * b)%R by ring.
  rewrite sqrt_square by lra.
  f_equal; field; lra.
Qed.

Lemma slope_vector_up N (scale : R) (heights : list R) z x :
  (0 < scale)%R -> (0 < vy (slope_vector N scale heights z x))%R.
Proof.
  intros Hs. unfold slope_vector. cbn [vy fmul flit normal_ops ideal].
  rewrite ideal_lit_2. lra.
Qed.

Lemma lattice_normal N (scale : R) (heights : list R) z x :
  normal_of (lattice_vertex N scale heights z x)
  = glm.normalize (slope_vector N scale heights z x).
Proof. reflexivity. Qed.

End IdealNormals.




(** At the program's own scale 0.5 the same flat point gets the up vector
    exactly. *)
Lemma flat_normal_at_terrainScale :
  (fun m => @normal_of _ flat32 (chunk 8 0 m.1))
    <$> @generateTerrain _ flat32 [] [] 2 terrainScale
          terrainOffsetX terrainOffsetZ terrainAmplitude terrainFreq
    = Some (Vec3 (S754_zero false) (B32.lit 1 0) (S754_zero false)).
Proof. vm_compute. reflexivity. Qed.

(** ** The scenario of the specification

    N = 4: a mesh of 16 vertices and 18 triangles (54 indices), whatever the
    arithmetic and the other parameters. *)
Lemma scenario_grid_4 {F : Type} `{FloatOps F}
    (scale offsetX offsetZ amplitude freq : F) :
  exists vertices indices,
    generateTerrain [] [] 4 scale offsetX offsetZ amplitude freq
      = Some (vertices, indices) /\
    length vertices = (16 * 8)%nat /\
    length indices = 54%nat /\
    length (triangles indices) = 18%nat.
Proof.
  destruct (generateTerrain_spec [] [] 4 scale offsetX offsetZ amplitude freq)
    as (hs & _ & _ & E); [unfold max_grid; lia|].
  eexists _, _. split; [exact E|].
  rewrite length_vertex_stream. repeat split.
Qed.

(** ** Single precision: further facts *)

(** When every octave returns -1 the base handed to the power function is
    -31/64, a negative number. *)
Lemma sampleHeight_negative_base_binary32
    (pw : spec_float -> spec_float -> spec_float)
    (x z offsetX offsetZ amplitude freq : spec_float) :
  @sampleHeight _ (binary32 (const_noise (B32.lit (-1) 0)) pw)
    x z offsetX offsetZ amplitude freq
  = SFmul B32.prec B32.emax (pw (B32.lit (-31) (-6)) (B32.lit 3 (-1))) amplitude.
Proof. reflexivity. Qed.

(** A finite height minus itself is [+0]. *)
Lemma SFsub_diag (s : bool) (m : positive) (e : Z) :
  SFsub B32.prec B32.emax (S754_finite s m e) (S754_finite s m e)
  = S754_zero false.
Proof.
  unfold SFsub. cbv zeta. now rewrite Z.sub_diag.
Qed.

Lemma SFsub_number_diag (h : spec_float) :
  is_number h = true -> SFsub B32.prec B32.emax h h = S754_zero false.
Proof.
  destruct h as [[|]| | |s m e]; try discriminate; intros _;
    [reflexivity|reflexivity|apply SFsub_diag].
Qed.

Lemma flat_up_at_spec (k : Z) :
  flat_up_at k = true ->
  @glm.normalize _ flat32
    (Vec3 (S754_zero false)
       (SFmul B32.prec B32.emax (B32.lit 2 0) (B32.lit 1 k))
       (S754_zero false))
  = Vec3 (S754_zero false) (B32.lit 1 0) (S754_zero false).
Proof.
  unfold flat_up_at. intros Hk.
  repeat match type of Hk with
         | context [match ?t with _ => _ end] => destruct t; try discriminate
         end.
  reflexivity.
Qed.

(** The scales 2^k for which this holds are exactly those whose doubled
    square neither underflows nor overflows: k from -75 to 62. *)
Lemma flat_up_range :
  forallb flat_up_at (seqZ (-75) 138) = true /\
  flat_up_at (-76) = false /\ flat_up_at 63 = false.
Proof. repeat split; vm_compute; reflexivity. Qed.

(** In single precision, at scale 2^k with -75 <= k <= 62, a lattice point
    whose neighbours are numbers, equal along x and equal along z, gets
    the normal (0, 1, 0), for any noise and power function. *)
Lemma flat_normal_binary32
    (noise : noise_fn spec_float)
    (pw : spec_float -> spec_float -> spec_float)
    (N : Z) (heights : list spec_float) (z x k : Z) :
  -75 <= k <= 62 ->
  is_number (@hLeft _ (binary32 noise pw) N heights z x) = true ->
  is_number (@hDown _ (binary32 noise pw) N heights z x) = true ->
  @hRight _ (binary32 noise pw) N heights z x
    = @hLeft _ (binary32 noise pw) N heights z x ->
  @hUp _ (binary32 noise pw) N heights z x
    = @hDown _ (binary32 noise pw) N heights z x ->
  @glm.normalize _ (binary32 noise pw)
    (@slope_vector _ (binary32 noise pw) N (B32.lit 1 k) heights z x)
  = Vec3 (S754_zero false) (B32.lit 1 0) (S754_zero false).
Proof.
  intros Hk Hl Hd Er Eu. unfold slope_vector. rewrite Er, Eu.
  cbn [fsub fmul flit binary32].
  rewrite (SFsub_number_diag _ Hl), (SFsub_number_diag _ Hd).
  destruct flat_up_range as (Hall & _ & _).
  rewrite forallb_forall in Hall.
  apply (flat_up_at_spec k), Hall, list_elem_of_In, elem_of_seqZ. lia.
Qed.

(** * Further properties of the generator *)

(** ** Every vertex is used *)

Lemma corner_in_cell N cz cx dz dx :
  dz = 0 \/ dz = 1 -> dx = 0 \/ dx = 1 ->
  corner N (cz + dz) (cx + dx) ∈ cell_triangles N cz cx.
Proof.
  intros [-> | ->] [-> | ->]; unfold cell_triangles;
    rewrite ?Z.add_0_r, !elem_of_cons; auto 10.
Qed.

Lemma index_sequence_covers N i :
  2 <= N -> 0 <= i < N * N -> i ∈ index_sequence N.
Proof.
  intros HN Hi.
  assert (Hrow : 0 <= i / N < N).
  { split; [apply Z.div_pos; lia|apply Z.div_lt_upper_bound; lia]. }
  assert (Hcol : 0 <= i mod N < N) by (apply Z.mod_pos_bound; lia).
  assert (Hi' : i = corner N (i / N) (i mod N)).
  { unfold corner. rewrite (Z.div_mod i N) at 1 by lia. ring. }
  set (cz := Z.min (i / N) (N - 2)). set (cx := Z.min (i mod N) (N - 2)).
  unfold index_sequence.
  apply list_elem_of_bind. exists cz. split; [|apply elem_of_seqZ; lia].
  apply list_elem_of_bind. exists cx. split; [|apply elem_of_seqZ; lia].
  rewrite Hi'.
  replace (i / N) with (cz + (i / N - cz)) by ring.
  replace (i mod N) with (cx + (i mod N - cx)) by ring.
  apply corner_in_cell; lia.
Qed.

(** The indices the generator emits are exactly the vertex numbers
    0 .. N^2 - 1: the mesh has no vertex that no triangle uses, and no
    index without a vertex. *)
Theorem generateTerrain_uses_every_vertex {F : Type} `{FloatOps F}
    (vertices : list F) (indices : list Z) (N : Z)
    (scale offsetX offsetZ amplitude freq : F) :
  2 <= N <= max_grid ->
  exists vertices' indices',
    generateTerrain vertices indices N scale offsetX offsetZ amplitude freq
      = Some (vertices', indices') /\
    forall i, i ∈ indices' <-> 0 <= i < N * N.
Proof.
  intros HN.
  destruct (generateTerrain_spec vertices indices N scale offsetX offsetZ
              amplitude freq) as (hs & _ & _ & E); [lia|].
  exists (vertex_stream N scale hs), (index_sequence N).
  split; [exact E|]. intros i. split.
  - intros Hi. pose proof (index_in_range N (proj1 HN)) as Hall.
    rewrite Forall_forall in Hall. now apply Hall.
  - apply index_sequence_covers. lia.
Qed.

Lemma generateTerrain_uses_every_vertex_witness :
  2 <= GRID_N <= max_grid /\
  exists vertices' indices',
    @generateTerrain _ flat32 [] [] GRID_N
      terrainScale terrainOffsetX terrainOffsetZ terrainAmplitude terrainFreq
      = Some (vertices', indices') /\
    forall i, i ∈ indices' <-> 0 <= i < GRID_N * GRID_N.
Proof.
  assert (HN : 2 <= GRID_N <= max_grid) by (unfold GRID_N, max_grid; lia).
  split; [exact HN|]. now apply generateTerrain_uses_every_vertex.
Defined.

(** ** Winding *)

(** The lattice column and row of a vertex number. *)
Definition lattice_col (N i : Z) : Z := i mod N.
Definition lattice_row (N i : Z) : Z := i / N.

(** The y component of (b - a) x (c - a) for a triangle (a, b, c), its
    corners taken at their lattice points (column along x, row along z):
    positive when the face looks up. *)
Definition face_up (N : Z) (t : Z * Z * Z) : Z :=
  let '(a, b, c) := t in
  (lattice_row N b - lattice_row N a) * (lattice_col N c - lattice_col N a)
  - (lattice_col N b - lattice_col N a) * (lattice_row N c - lattice_row N a).

Lemma corner_row N z x : 0 <= x < N -> lattice_row N (corner N z x) = z.
Proof.
  intros Hx. unfold lattice_row, corner. symmetry.
  apply (Z.div_unique _ _ z x); [lia|ring].
Qed.

Lemma corner_col N z x : 0 <= x < N -> lattice_col N (corner N z x) = x.
Proof.
  intros Hx. unfold lattice_col, corner. symmetry.
  apply (Z.mod_unique _ _ z x); [lia|ring].
Qed.

Lemma triangles_bind_Forall {A : Type} (P : Z * Z * Z -> Prop)
    (g : A -> list Z) (l : list A) :
  (forall a, a ∈ l ->
     (exists k, length (g a) = (3 * k)%nat) /\ Forall P (triangles (g a))) ->
  (exists k, length (l ≫= g) = (3 * k)%nat) /\
  Forall P (triangles (l ≫= g)).
Proof.
  induction l as [|a l IH]; intros Hg.
  - split; [exists 0%nat; reflexivity|constructor].
  - destruct (Hg a) as [[k Hk] Ha]; [apply elem_of_cons; now left|].
    destruct IH as [[k' Hk'] IH'].
    { intros b Hb. apply Hg, elem_of_cons. now right. }
    rewrite bind_cons. split.
    + exists (k + k')%nat. rewrite length_app, Hk, Hk'. lia.
    + rewrite (triangles_app _ _ k Hk). now apply Forall_app.
Qed.

Lemma cell_faces_up N z x :
  2 <= N -> 0 <= z < N - 1 -> 0 <= x < N - 1 ->
  Forall (fun t => face_up N t = 1) (triangles (cell_triangles N z x)).
Proof.
  intros HN Hz Hx. unfold cell_triangles. cbn [triangles].
  repeat constructor; unfold face_up;
    rewrite !corner_row, !corner_col by lia; ring.
Qed.

(** Every triangle the generator emits has the same winding: on the
    lattice, (b - a) x (c - a) is exactly one cell area pointing up, so no
    triangle is degenerate or flipped. *)
Theorem generateTerrain_winding {F : Type} `{FloatOps F}
    (vertices : list F) (indices : list Z) (N : Z)
    (scale offsetX offsetZ amplitude freq : F) :
  2 <= N <= max_grid ->
  exists vertices' indices',
    generateTerrain vertices indices N scale offsetX offsetZ amplitude freq
      = Some (vertices', indices') /\
    Forall (fun t => face_up N t = 1) (triangles indices').
Proof.
  intros HN.
  destruct (generateTerrain_spec vertices indices N scale offsetX offsetZ
              amplitude freq) as (hs & _ & _ & E); [lia|].
  exists (vertex_stream N scale hs), (index_sequence N).
  split; [exact E|]. unfold index_sequence.
  apply triangles_bind_Forall. intros z Hz. apply elem_of_seqZ in Hz.
  apply triangles_bind_Forall. intros x Hx. apply elem_of_seqZ in Hx.
  split; [exists 2%nat; reflexivity|]. apply cell_faces_up; lia.
Qed.

Lemma generateTerrain_winding_witness :
  2 <= GRID_N <= max_grid /\
  exists vertices' indices',
    @generateTerrain _ flat32 [] [] GRID_N
      terrainScale terrainOffsetX terrainOffsetZ terrainAmplitude terrainFreq
      = Some (vertices', indices') /\
    Forall (fun t => face_up GRID_N t = 1) (triangles indices').
Proof.
  assert (HN : 2 <= GRID_N <= max_grid) by (unfold GRID_N, max_grid; lia).
  split; [exact HN|]. now apply generateTerrain_winding.
Defined.

(** ** What a regeneration leaves alone *)

(** Two meshes of the same grid and cell spacing, generated with any two
    offsets, amplitudes and frequencies, agree at every vertex on the
    position's x and z and on both texture coordinates; only the height
    and the normal move (floats 1, 3, 4, 5 of the record). *)
Theorem generateTerrain_static_attributes {F : Type} `{FloatOps F}
    (vertices1 vertices2 : list F) (indices1 indices2 : list Z) (N : Z)
    (scale : F) (offsetX1 offsetZ1 amplitude1 freq1 : F)
    (offsetX2 offsetZ2 amplitude2 freq2 : F) :
  2 <= N <= max_grid ->
  exists mesh1 mesh2,
    generateTerrain vertices1 indices1 N scale offsetX1 offsetZ1
      amplitude1 freq1 = Some mesh1 /\
    generateTerrain vertices2 indices2 N scale offsetX2 offsetZ2
      amplitude2 freq2 = Some mesh2 /\
    mesh1.2 = mesh2.2 /\
    forall k j, (k < Z.to_nat (N * N))%nat ->
      j = 0%nat \/ j = 2%nat \/ j = 6%nat \/ j = 7%nat ->
      chunk 8 k mesh1.1 !! j = chunk 8 k mesh2.1 !! j /\
      is_Some (chunk 8 k mesh1.1 !! j).
Proof.
  intros HN.
  destruct (generateTerrain_spec vertices1 indices1 N scale offsetX1 offsetZ1
              amplitude1 freq1) as (hs1 & _ & _ & E1); [lia|].
  destruct (generateTerrain_spec vertices2 indices2 N scale offsetX2 offsetZ2
              amplitude2 freq2) as (hs2 & _ & _ & E2); [lia|].
  eexists _, _. split; [exact E1|]. split; [exact E2|].
  split; [reflexivity|]. cbn [fst snd]. intros k j Hk Hj.
  assert (Hzx : Z.of_nat k = (Z.of_nat k / N) * N + Z.of_nat k mod N).
  { rewrite (Z.div_mod (Z.of_nat k) N) at 1 by lia. ring. }
  assert (Hrow : 0 <= Z.of_nat k / N < N).
  { split; [apply Z.div_pos; lia|apply Z.div_lt_upper_bound; nia]. }
  assert (Hcol : 0 <= Z.of_nat k mod N < N) by (apply Z.mod_pos_bound; lia).
  replace k with (Z.to_nat ((Z.of_nat k / N) * N + Z.of_nat k mod N)) by lia.
  rewrite !chunk_vertex_stream by assumption.
  destruct Hj as [-> | [-> | [-> | ->]]]; (split; [reflexivity|eexists; reflexivity]).
Qed.

Lemma generateTerrain_static_attributes_witness :
  2 <= GRID_N <= max_grid /\
  exists mesh1 mesh2,
    @generateTerrain _ flat32 [] [] GRID_N terrainScale terrainOffsetX
      terrainOffsetZ terrainAmplitude terrainFreq = Some mesh1 /\
    @generateTerrain _ flat32 [] [] GRID_N terrainScale (B32.lit 100 0)
      (B32.lit 3 0) (B32.lit 10 0) (B32.lit 1 (-3)) = Some mesh2 /\
    mesh1.2 = mesh2.2 /\
    forall k j, (k < Z.to_nat (GRID_N * GRID_N))%nat ->
      j = 0%nat \/ j = 2%nat \/ j = 6%nat \/ j = 7%nat ->
      chunk 8 k mesh1.1 !! j = chunk 8 k mesh2.1 !! j /\
      is_Some (chunk 8 k mesh1.1 !! j).
Proof.
  assert (HN : 2 <= GRID_N <= max_grid) by (unfold GRID_N, max_grid; lia).
  split; [exact HN|]. now apply generateTerrain_static_attributes.
Defined.

(** ** Single precision: a NaN amplitude *)

Section NanAmplitude.
Variable noise : noise_fn spec_float.
Variable pw : spec_float -> spec_float -> spec_float.

#[local] Instance nan_ops : FloatOps spec_float := binary32 noise pw.

Lemma fmul_nan_r (x : spec_float) : fmul x S754_nan = S754_nan.
Proof. destruct x; reflexivity. Qed.

Lemma sampleHeight_nan_amplitude (x z offsetX offsetZ freq : spec_float) :
  sampleHeight x z offsetX offsetZ S754_nan freq = S754_nan.
Proof. unfold sampleHeight. apply fmul_nan_r. Qed.

(** A grid of NaN heights gives NaN normals, whatever the scale. *)
Lemma normalize_nan_slope (y : spec_float) :
  glm.normalize (Vec3 S754_nan y S754_nan)
  = Vec3 S754_nan S754_nan S754_nan.
Proof.
  unfold glm.normalize, glm.scale_vec, glm.inversesqrt, glm.dot.
  cbn [vx vy vz].
  change (fmul S754_nan S754_nan) with S754_nan.
  change (fadd S754_nan (fmul y y)) with S754_nan.
  change (fadd S754_nan S754_nan) with S754_nan.
  change (fsqrt S754_nan) with S754_nan.
  change (fdiv (flit 1 0) S754_nan) with S754_nan.
  change (fmul S754_nan S754_nan) with S754_nan.
  now rewrite fmul_nan_r.
Qed.

Lemma nan_grid_vertex N scale (heights : list spec_float) z x :
  0 <= z < N -> 0 <= x < N ->
  (forall z' x', 0 <= z' < N -> 0 <= x' < N ->
     grid_at N heights z' x' = S754_nan) ->
  lattice_vertex N scale heights z x !! 1%nat = Some S754_nan /\
  normal_of (lattice_vertex N scale heights z x)
  = Vec3 S754_nan S754_nan S754_nan.
Proof.
  intros Hz Hx Hnan.
  assert (Hl : hLeft N heights z x = S754_nan).
  { unfold hLeft. destruct (Z.ltb_spec 0 x); apply Hnan; lia. }
  assert (Hr : hRight N heights z x = S754_nan).
  { unfold hRight. destruct (Z.ltb_spec x (N - 1)); apply Hnan; lia. }
  assert (Hd : hDown N heights z x = S754_nan).
  { unfold hDown. destruct (Z.ltb_spec 0 z); apply Hnan; lia. }
  assert (Hu : hUp N heights z x = S754_nan).
  { unfold hUp. destruct (Z.ltb_spec z (N - 1)); apply Hnan; lia. }
  split.
  - cbn. f_equal. apply Hnan; lia.
  - change (normal_of (lattice_vertex N scale heights z x))
      with (glm.normalize (slope_vector N scale heights z x)).
    unfold slope_vector. rewrite Hl, Hr, Hd, Hu.
    change (fsub S754_nan S754_nan) with S754_nan.
    apply normalize_nan_slope.
Qed.

End NanAmplitude.

(** In single precision a NaN amplitude is not refused: the generator
    returns a mesh in which the height and all three normal components of
    every vertex are NaN, for any noise and power function, scale, offset
    and frequency. *)
Theorem generateTerrain_nan_amplitude
    (noise : noise_fn spec_float)
    (pw : spec_float -> spec_float -> spec_float)
    (vertices : list spec_float) (indices : list Z) (N : Z)
    (scale offsetX offsetZ freq : spec_float) :
  1 <= N <= max_grid ->
  exists vertices' indices',
    @generateTerrain _ (binary32 noise pw) vertices indices N scale
      offsetX offsetZ S754_nan freq = Some (vertices', indices') /\
    forall z x, 0 <= z < N -> 0 <= x < N ->
      chunk 8 (Z.to_nat (z * N + x)) vertices' !! 1%nat = Some S754_nan /\
      @normal_of _ (binary32 noise pw)
        (chunk 8 (Z.to_nat (z * N + x)) vertices')
      = Vec3 S754_nan S754_nan S754_nan.
Proof.
  intros HN.
  destruct (@generateTerrain_spec _ (binary32 noise pw) vertices indices N
              scale offsetX offsetZ S754_nan freq) as (hs & _ & Hgrid & E);
    [lia|].
  eexists _, _. split; [exact E|]. intros z x Hz Hx.
  rewrite (@chunk_vertex_stream _ (binary32 noise pw)) by assumption.
  apply (nan_grid_vertex noise pw); [assumption..|].
  intros z' x' Hz' Hx'. rewrite Hgrid by assumption.
  apply (sampleHeight_nan_amplitude noise pw).
Qed.

Lemma generateTerrain_nan_amplitude_witness :
  1 <= GRID_N <= max_grid /\
  exists vertices' indices',
    @generateTerrain _ (binary32 (const_noise (B32.lit 1 (-2))) pow_sqrt)
      [] [] GRID_N terrainScale terrainOffsetX terrainOffsetZ S754_nan
      terrainFreq = Some (vertices', indices') /\
    forall z x, 0 <= z < GRID_N -> 0 <= x < GRID_N ->
      chunk 8 (Z.to_nat (z * GRID_N + x)) vertices' !! 1%nat
        = Some S754_nan /\
      @normal_of _ (binary32 (const_noise (B32.lit 1 (-2))) pow_sqrt)
        (chunk 8 (Z.to_nat (z * GRID_N + x)) vertices')
      = Vec3 S754_nan S754_nan S754_nan.
Proof.
  assert (HN : 1 <= GRID_N <= max_grid) by (unfold GRID_N, max_grid; lia).
  split; [exact HN|]. now apply generateTerrain_nan_amplitude.
Defined.

(** ** Single precision: normals never point down *)

(** The sign bit of a float; NaN carries none. *)
Definition sign_bit (x : spec_float) : bool :=
  match x with
  | S754_zero s | S754_infinity s | S754_finite s _ _ => s
  | S754_nan => false
  end.

Lemma round_aux_sign (m e : Z) (l : location) :
  sign_bit (binary_round_aux B32.prec B32.emax false m e l) = false.
Proof.
  unfold binary_round_aux.
  destruct (shr_fexp B32.prec B32.emax m e l) as [mrs e'].
  destruct (shr_fexp B32.prec B32.emax _ e' loc_Exact) as [mrs' e''].
  destruct (shr_m mrs'); [reflexivity| |reflexivity].
  now destruct (Z.leb e'' (B32.emax - B32.prec)).
Qed.

Lemma SFmul_self_sign (a : spec_float) :
  sign_bit (SFmul B32.prec B32.emax a a) = false.
Proof.
  destruct a as [s|s| |s m e]; cbn [SFmul sign_bit];
    rewrite ?xorb_nilpotent; try reflexivity.
  apply round_aux_sign.
Qed.

Lemma SFmul_sign (a b : spec_float) :
  sign_bit a = false -> sign_bit b = false ->
  sign_bit (SFmul B32.prec B32.emax a b) = false.
Proof.
  destruct a as [s|s| |s m e]; destruct b as [s'|s'| |s' m' e'];
    cbn [sign_bit]; intros Ha Hb; subst; try reflexivity.
  cbn [SFmul xorb]. apply round_aux_sign.
Qed.

Lemma SFadd_sign (a b : spec_float) :
  sign_bit a = false -> sign_bit b = false ->
  sign_bit (SFadd B32.prec B32.emax a b) = false.
Proof.
  destruct a as [s|s| |s m e]; destruct b as [s'|s'| |s' m' e'];
    cbn [sign_bit]; intros Ha Hb; subst; try reflexivity.
  cbn [SFadd cond_Zopp]. cbv zeta.
  rewrite <- Pos2Z.inj_add. cbn [binary_normalize]. unfold binary_round.
  destruct (shl_align _ _ _) as [mz ez]. apply round_aux_sign.
Qed.

Lemma SFsqrt_sign (a : spec_float) :
  sign_bit a = false -> sign_bit (SFsqrt B32.prec B32.emax a) = false.
Proof.
  destruct a as [s|s| |s m e]; cbn [sign_bit]; intros Ha; subst;
    try reflexivity.
  cbn [SFsqrt].
  destruct (SFsqrt_core_binary B32.prec B32.emax (Z.pos m) e) as [[mz ez] lz].
  apply round_aux_sign.
Qed.

Lemma SFdiv_one_sign (a : spec_float) :
  sign_bit a = false ->
  sign_bit (SFdiv B32.prec B32.emax (B32.lit 1 0) a) = false.
Proof.
  change (B32.lit 1 0) with (S754_finite false 8388608 (-23)).
  destruct a as [s|s| |s m e]; cbn [sign_bit]; intros Ha; subst;
    try reflexivity.
  cbn [SFdiv xorb].
  destruct (SFdiv_core_binary B32.prec B32.emax _ _ _ _) as [[mz ez] lz].
  apply round_aux_sign.
Qed.

Section UpwardNormals.
Variable noise : noise_fn spec_float.
Variable pw : spec_float -> spec_float -> spec_float.

#[local] Instance upward_ops : FloatOps spec_float := binary32 noise pw.

Lemma dot_self_sign (v : vec3 spec_float) : sign_bit (glm.dot v v) = false.
Proof.
  unfold glm.dot. cbn [fadd fmul upward_ops binary32].
  repeat apply SFadd_sign; apply SFmul_self_sign.
Qed.

Lemma inversesqrt_dot_sign (v : vec3 spec_float) :
  sign_bit (glm.inversesqrt (glm.dot v v)) = false.
Proof.
  unfold glm.inversesqrt. cbn [fdiv fsqrt flit upward_ops binary32].
  apply SFdiv_one_sign, SFsqrt_sign, dot_self_sign.
Qed.

Lemma normal_y_sign N scale (heights : list spec_float) z x :
  sign_bit scale = false ->
  sign_bit (vy (glm.normalize (slope_vector N scale heights z x))) = false.
Proof.
  intros Hs. unfold glm.normalize, glm.scale_vec. cbn [vy].
  cbn [fmul upward_ops binary32]. apply SFmul_sign.
  - unfold slope_vector. cbn [vy fmul flit upward_ops binary32].
    apply SFmul_sign; [reflexivity|exact Hs].
  - apply inversesqrt_dot_sign.
Qed.

End UpwardNormals.

(** In single precision, when the cell spacing is not negative, no vertex
    gets a normal whose y component is negative: whatever the heights, the
    noise and the power function, each emitted normal.y is +0, positive,
    +infinity or NaN. *)
Theorem generateTerrain_normals_not_downward
    (noise : noise_fn spec_float)
    (pw : spec_float -> spec_float -> spec_float)
    (vertices : list spec_float) (indices : list Z) (N : Z)
    (scale offsetX offsetZ amplitude freq : spec_float) :
  1 <= N <= max_grid ->
  sign_bit scale = false ->
  exists vertices' indices',
    @generateTerrain _ (binary32 noise pw) vertices indices N scale
      offsetX offsetZ amplitude freq = Some (vertices', indices') /\
    forall z x, 0 <= z < N -> 0 <= x < N ->
      exists ny,
        chunk 8 (Z.to_nat (z * N + x)) vertices' !! 4%nat = Some ny /\
        sign_bit ny = false.
Proof.
  intros HN Hs.
  destruct (@generateTerrain_spec _ (binary32 noise pw) vertices indices N
              scale offsetX offsetZ amplitude freq) as (hs & _ & _ & E);
    [lia|].
  eexists _, _. split; [exact E|]. intros z x Hz Hx.
  rewrite (@chunk_vertex_stream _ (binary32 noise pw)) by assumption.
  eexists. split; [reflexivity|].
  exact (normal_y_sign noise pw N scale hs z x Hs).
Qed.

Lemma generateTerrain_normals_not_downward_witness :
  1 <= GRID_N <= max_grid /\
  sign_bit terrainScale = false /\
  exists vertices' indices',
    @generateTerrain _ flat32 [] [] GRID_N terrainScale
      terrainOffsetX terrainOffsetZ terrainAmplitude terrainFreq
      = Some (vertices', indices') /\
    forall z x, 0 <= z < GRID_N -> 0 <= x < GRID_N ->
      exists ny,
        chunk 8 (Z.to_nat (z * GRID_N + x)) vertices' !! 4%nat = Some ny /\
        sign_bit ny = false.
Proof.
  assert (HN : 1 <= GRID_N <= max_grid) by (unfold GRID_N, max_grid; lia).
  assert (Hs : sign_bit terrainScale = false) by reflexivity.
  split; [exact HN|]. split; [exact Hs|].
  now apply generateTerrain_normals_not_downward.
Defined.

(** ** Exact arithmetic: scrolling, texture coordinates, spacing *)

Section IdealLattice.
Variable noise : noise_fn R.

#[local] Instance lattice_ops : FloatOps R := ideal noise.

Lemma ideal_of_int (n : Z) : of_int n = IZR n.
Proof. unfold of_int. cbn [flit lattice_ops ideal]. unfold Ideal.lit. simpl. lra. Qed.

(** An offset of [k] cells is a shift of the lattice by [k] columns. *)
Lemma sample_at_scroll (scale offsetX offsetZ amplitude freq : R) (z x k : Z) :
  sample_at scale (offsetX + IZR k * scale)%R offsetZ amplitude freq z x
  = sample_at scale offsetX offsetZ amplitude freq z (x + k).
Proof.
  unfold sample_at, sampleHeight. rewrite !ideal_of_int.
  cbn [fadd fmul lattice_ops ideal].
  replace (IZR x * scale + (offsetX + IZR k * scale))%R
    with (IZR (x + k) * scale + offsetX)%R by (rewrite plus_IZR; ring).
  reflexivity.
Qed.

Lemma texcoord_unit (N x : Z) :
  2 <= N -> 0 <= x < N ->
  (0 <= fdiv (of_int x) (of_int (N - 1)) <= 1)%R.
Proof.
  intros HN Hx. rewrite !ideal_of_int. cbn [fdiv lattice_ops ideal].
  assert (Hd : (0 < IZR (N - 1))%R) by (apply IZR_lt; lia).
  assert (Hx0 : (0 <= IZR x)%R) by (apply IZR_le; lia).
  assert (Hx1 : (IZR x <= IZR (N - 1))%R) by (apply IZR_le; lia).
  split.
  - apply Rmult_le_pos; [assumption|]. left. now apply Rinv_0_lt_compat.
  - apply (Rmult_le_reg_r (IZR (N - 1))); [assumption|].
    unfold Rdiv. rewrite Rmult_assoc, Rinv_l by lra. lra.
Qed.

Lemma texcoord_ends (N : Z) :
  2 <= N ->
  fdiv (of_int 0) (of_int (N - 1)) = 0%R /\
  fdiv (of_int (N - 1)) (of_int (N - 1)) = 1%R.
Proof.
  intros HN. rewrite !ideal_of_int. cbn [fdiv lattice_ops ideal].
  assert (Hd : (0 < IZR (N - 1))%R) by (apply IZR_lt; lia).
  split; field; lra.
Qed.

Lemma position_step (N x : Z) (scale : R) :
  (fmul (of_int (x + 1 - Z.quot N 2)) scale
   - fmul (of_int (x - Z.quot N 2)) scale = scale)%R.
Proof.
  rewrite !ideal_of_int. cbn [fmul lattice_ops ideal].
  replace (x + 1 - Z.quot N 2) with (x - Z.quot N 2 + 1) by ring.
  rewrite plus_IZR. ring.
Qed.

End IdealLattice.







(** * The rest of the program: input, mouse and the render loop

    The camera of learnopengl/camera.h, the window and OpenGL are outside
    the repository: the camera is an abstract state with its three methods
    taken as they come, a key table stands for glfwGetKey, and the buffer
    and draw calls of OpenGL are recorded, in order, as a trace. *)

Inductive Key : Set :=
  | GLFW_KEY_ESCAPE | GLFW_KEY_W | GLFW_KEY_S | GLFW_KEY_A | GLFW_KEY_D
  | GLFW_KEY_UP | GLFW_KEY_DOWN | GLFW_KEY_LEFT | GLFW_KEY_RIGHT.

Inductive Camera_Movement : Set := FORWARD | BACKWARD | LEFT | RIGHT.

(** [std::abs] and [>] on floats. *)
Class FloatCmp (F : Type) := {
  fabs : F -> F;
  fgt : F -> F -> bool
}.

Definition cmp32 : FloatCmp spec_float :=
  {| fabs := SFabs;
     fgt := fun a b => SFltb b a |}.

Definition cmp_ideal : FloatCmp R :=
  {| fabs := Rabs;
     fgt := fun a b => if Rlt_dec b a then true else false |}.

(** The global variables of the program. *)
Module Globals.

Record t (F C : Type) := Make {
  camera : C;
  lastX : F;
  lastY : F;
  firstMouse : bool;
  deltaTime : F;
  lastFrame : F;
  terrainScale : F;
  terrainAmplitude : F;
  terrainFreq : F;
  terrainOffsetX : F;
  terrainOffsetZ : F;
  (** the flag behind glfwSetWindowShouldClose / glfwWindowShouldClose *)
  windowShouldClose : bool
}.

Arguments Make {F C}.
Arguments camera {F C}.
Arguments lastX {F C}.
Arguments lastY {F C}.
Arguments firstMouse {F C}.
Arguments deltaTime {F C}.
Arguments lastFrame {F C}.
Arguments terrainScale {F C}.
Arguments terrainAmplitude {F C}.
Arguments terrainFreq {F C}.
Arguments terrainOffsetX {F C}.
Arguments terrainOffsetZ {F C}.
Arguments windowShouldClose {F C}.

Section Setters.
Context {F C : Type}.

Definition set_camera (c : C) (g : t F C) : t F C :=
  Make c (lastX g) (lastY g) (firstMouse g) (deltaTime g) (lastFrame g)
    (terrainScale g) (terrainAmplitude g) (terrainFreq g)
    (terrainOffsetX g) (terrainOffsetZ g) (windowShouldClose g).

Definition set_mouse (x y : F) (first : bool) (g : t F C) : t F C :=
  Make (camera g) x y first (deltaTime g) (lastFrame g)
    (terrainScale g) (terrainAmplitude g) (terrainFreq g)
    (terrainOffsetX g) (terrainOffsetZ g) (windowShouldClose g).

Definition set_time (dt now : F) (g : t F C) : t F C :=
  Make (camera g) (lastX g) (lastY g) (firstMouse g) dt now
    (terrainScale g) (terrainAmplitude g) (terrainFreq g)
    (terrainOffsetX g) (terrainOffsetZ g) (windowShouldClose g).

Definition set_terrainOffsetX (v : F) (g : t F C) : t F C :=
  Make (camera g) (lastX g) (lastY g) (firstMouse g) (deltaTime g)
    (lastFrame g) (terrainScale g) (terrainAmplitude g) (terrainFreq g)
    v (terrainOffsetZ g) (windowShouldClose g).

Definition set_terrainOffsetZ (v : F) (g : t F C) : t F C :=
  Make (camera g) (lastX g) (lastY g) (firstMouse g) (deltaTime g)
    (lastFrame g) (terrainScale g) (terrainAmplitude g) (terrainFreq g)
    (terrainOffsetX g) v (windowShouldClose g).

Definition set_windowShouldClose (b : bool) (g : t F C) : t F C :=
  Make (camera g) (lastX g) (lastY g) (firstMouse g) (deltaTime g)
    (lastFrame g) (terrainScale g) (terrainAmplitude g) (terrainFreq g)
    (terrainOffsetX g) (terrainOffsetZ g) b.

End Setters.
End Globals.

(** The OpenGL calls that touch the terrain buffers or draw them. *)
Inductive gl_call (F : Type) : Type :=
  (** glBufferData (GL_ARRAY_BUFFER, bytes, data, GL_DYNAMIC_DRAW) *)
  | glBufferData_array (bytes : Z) (data : list F)
  (** glBufferData (GL_ELEMENT_ARRAY_BUFFER, bytes, data, GL_STATIC_DRAW) *)
  | glBufferData_element (bytes : Z) (data : list Z)
  (** glBufferSubData (GL_ARRAY_BUFFER, offset, bytes, data) *)
  | glBufferSubData_array (offset bytes : Z) (data : list F)
  (** glDrawElements (GL_TRIANGLES, count, GL_UNSIGNED_INT, 0) *)
  | glDrawElements (count : Z).

Arguments glBufferData_array {F}.
Arguments glBufferData_element {F}.
Arguments glBufferSubData_array {F}.
Arguments glDrawElements {F}.

(** The window events the program listens to (the cursor position and
    the scroll wheel), with the [double]s GLFW passes. *)
Inductive input_event (D : Type) : Type :=
  | CursorPos (xpos ypos : D)
  | Scroll (xoffset yoffset : D).

Arguments CursorPos {D}.
Arguments Scroll {D}.

(** The state of [main] once the window is up: the globals, the two
    vectors, [terrainIndexCount], and the two function-local statics of
    the loop, which hold nothing until control first passes their
    declaration. *)
Record loop_state (F C : Type) := LoopState {
  globals : Globals.t F C;
  terrainVertices : list F;
  terrainIndices : list Z;
  terrainIndexCount : Z;
  lastOffset : option (F * F)
}.

Arguments LoopState {F C}.
Arguments globals {F C}.
Arguments terrainVertices {F C}.
Arguments terrainIndices {F C}.
Arguments terrainIndexCount {F C}.
Arguments lastOffset {F C}.

Section Program.
Context {F C D : Type} `{FloatOps F} `{FloatCmp F}.

(** The methods of the camera. *)
Variable ProcessKeyboard : Camera_Movement -> F -> C -> C.
Variable ProcessMouseMovement : F -> F -> C -> C.
Variable ProcessMouseScroll : F -> C -> C.
(** [static_cast<float>] of a [double]. *)
Variable to_float : D -> F.

(** [if (pressed) camera.ProcessKeyboard (direction, deltaTime)]. *)
Definition camera_key (pressed : bool) (direction : Camera_Movement)
    (g : Globals.t F C) : Globals.t F C :=
  if pressed
  then Globals.set_camera
         (ProcessKeyboard direction (Globals.deltaTime g) (Globals.camera g)) g
  else g.

(** The last four statements of [processInput]: the keys that move the
    terrain patch. *)
Definition terrain_keys (keys : Key -> bool) (g : Globals.t F C)
  : Globals.t F C :=
  let moveSpeed :=
    fmul (flit 20 0) (fdiv (Globals.terrainAmplitude g) (flit 10 0)) in
  let g := if keys GLFW_KEY_UP || keys GLFW_KEY_W
           then Globals.set_terrainOffsetZ
                  (fsub (Globals.terrainOffsetZ g)
                        (fmul moveSpeed (Globals.deltaTime g))) g
           else g in
  let g := if keys GLFW_KEY_DOWN || keys GLFW_KEY_S
           then Globals.set_terrainOffsetZ
                  (fadd (Globals.terrainOffsetZ g)
                        (fmul moveSpeed (Globals.deltaTime g))) g
           else g in
  let g := if keys GLFW_KEY_LEFT || keys GLFW_KEY_A
           then Globals.set_terrainOffsetX
                  (fsub (Globals.terrainOffsetX g)
                        (fmul moveSpeed (Globals.deltaTime g))) g
           else g in
  let g := if keys GLFW_KEY_RIGHT || keys GLFW_KEY_D
           then Globals.set_terrainOffsetX
                  (fadd (Globals.terrainOffsetX g)
                        (fmul moveSpeed (Globals.deltaTime g))) g
           else g in
  g.

Definition processInput (keys : Key -> bool) (g : Globals.t F C)
  : Globals.t F C :=
  let g := if keys GLFW_KEY_ESCAPE
           then Globals.set_windowShouldClose true g else g in
  let g := camera_key (keys GLFW_KEY_W) FORWARD g in
  let g := camera_key (keys GLFW_KEY_S) BACKWARD g in
  let g := camera_key (keys GLFW_KEY_A) LEFT g in
  let g := camera_key (keys GLFW_KEY_D) RIGHT g in
  terrain_keys keys g.

Definition mouse_callback (xposIn yposIn : D) (g : Globals.t F C)
  : Globals.t F C :=
  let xpos := to_float xposIn in
  let ypos := to_float yposIn in
  let g := if Globals.firstMouse g
           then Globals.set_mouse xpos ypos false g else g in
  let xoffset := fsub xpos (Globals.lastX g) in
  let yoffset := fsub (Globals.lastY g) ypos in
  let g := Globals.set_mouse xpos ypos (Globals.firstMouse g) g in
  Globals.set_camera
    (ProcessMouseMovement xoffset yoffset (Globals.camera g)) g.

Definition scroll_callback (xoffset yoffset : D) (g : Globals.t F C)
  : Globals.t F C :=
  Globals.set_camera
    (ProcessMouseScroll (to_float yoffset) (Globals.camera g)) g.

(** The literal 1e-6f: 8796093 * 2^-43. *)
Definition offset_epsilon : F := flit 8796093 (-43).

(** The test that opens a regeneration. *)
Definition offset_changed (lastOffsetX lastOffsetZ : F) (g : Globals.t F C)
  : bool :=
  fgt (fabs (fsub lastOffsetX (Globals.terrainOffsetX g))) offset_epsilon
  || fgt (fabs (fsub lastOffsetZ (Globals.terrainOffsetZ g))) offset_epsilon.

(** [main] from the first call of generateTerrain to the two uploads. *)
Definition startup (g : Globals.t F C)
  : option (loop_state F C * list (gl_call F)) :=
  mesh ← generateTerrain [] [] GRID_N (Globals.terrainScale g)
            (Globals.terrainOffsetX g) (Globals.terrainOffsetZ g)
            (Globals.terrainAmplitude g) (Globals.terrainFreq g);
  Some (LoopState g mesh.1 mesh.2 (Z.of_nat (length mesh.2)) None,
        [glBufferData_array (Z.of_nat (length mesh.1) * 4) mesh.1;
         glBufferData_element (Z.of_nat (length mesh.2) * 4) mesh.2]).

(** One pass of the render loop; [currentFrame] is the float read from
    glfwGetTime. *)
Definition frame (currentFrame : F) (keys : Key -> bool)
    (st : loop_state F C) : option (loop_state F C * list (gl_call F)) :=
  let g := globals st in
  let g := Globals.set_time (fsub currentFrame (Globals.lastFrame g))
             currentFrame g in
  let g := processInput keys g in
  let '(lastOffsetX, lastOffsetZ) :=
    match lastOffset st with
    | Some last => last
    | None => (Globals.terrainOffsetX g, Globals.terrainOffsetZ g)
    end in
  if offset_changed lastOffsetX lastOffsetZ g
  then
    mesh ← generateTerrain (terrainVertices st) (terrainIndices st) GRID_N
              (Globals.terrainScale g) (Globals.terrainOffsetX g)
              (Globals.terrainOffsetZ g) (Globals.terrainAmplitude g)
              (Globals.terrainFreq g);
    Some (LoopState g mesh.1 mesh.2 (terrainIndexCount st)
            (Some (Globals.terrainOffsetX g, Globals.terrainOffsetZ g)),
          [glBufferSubData_array 0 (Z.of_nat (length mesh.1) * 4) mesh.1;
           glDrawElements (terrainIndexCount st)])
  else
    Some (LoopState g (terrainVertices st) (terrainIndices st)
            (terrainIndexCount st) (Some (lastOffsetX, lastOffsetZ)),
          [glDrawElements (terrainIndexCount st)]).

(** What glfwPollEvents delivers at the end of a pass. *)
Definition glfwPollEvents (events : list (input_event D)) (g : Globals.t F C)
  : Globals.t F C :=
  fold_left
    (fun g e =>
       match e with
       | CursorPos xpos ypos => mouse_callback xpos ypos g
       | Scroll xoffset yoffset => scroll_callback xoffset yoffset g
       end)
    events g.

Definition set_globals (g : Globals.t F C) (st : loop_state F C)
  : loop_state F C :=
  LoopState g (terrainVertices st) (terrainIndices st) (terrainIndexCount st)
    (lastOffset st).

(** The loop over the inputs of successive passes (the time read, the
    keys held, the events polled); it is left when the window is to
    close. *)
Fixpoint render_loop
    (inputs : list (F * (Key -> bool) * list (input_event D)))
    (st : loop_state F C) : option (loop_state F C * list (gl_call F)) :=
  match inputs with
  | [] => Some (st, [])
  | (currentFrame, keys, events) :: inputs' =>
      if Globals.windowShouldClose (globals st) then Some (st, [])
      else
        '(st', calls) ← frame currentFrame keys st;
        let st' := set_globals (glfwPollEvents events (globals st')) st' in
        '(st'', calls') ← render_loop inputs' st';
        Some (st'', calls ++ calls')
  end.

End Program.

(** ** The render loop and the buffers *)

(** The sizes fixed by [GRID_N]. *)
Definition vertex_floats : Z := 8 * (GRID_N * GRID_N).
Definition index_count : Z := 6 * ((GRID_N - 1) * (GRID_N - 1)).

(** The vectors and the index count agree with what startup uploaded. *)
Definition buffers_consistent {F C : Type} (st : loop_state F C) : Prop :=
  Z.of_nat (length (terrainVertices st)) = vertex_floats /\
  terrainIndices st = index_sequence GRID_N /\
  terrainIndexCount st = index_count.

(** What the loop may ask of OpenGL: an overwrite of the whole vertex
    buffer from offset 0, or a draw of all the indices; never a new
    allocation. *)
Definition loop_call_ok {F : Type} (c : gl_call F) : Prop :=
  match c with
  | glBufferSubData_array offset bytes data =>
      offset = 0 /\ bytes = vertex_floats * 4 /\
      Z.of_nat (length data) = vertex_floats
  | glDrawElements count => count = index_count
  | _ => False
  end.

Section LoopFacts.
Context {F C D : Type} `{FloatOps F} `{FloatCmp F}.
Variable ProcessKeyboard : Camera_Movement -> F -> C -> C.
Variable ProcessMouseMovement : F -> F -> C -> C.
Variable ProcessMouseScroll : F -> C -> C.
Variable to_float : D -> F.

Lemma GRID_N_in_range : - max_grid <= GRID_N <= max_grid.
Proof. unfold GRID_N, max_grid. lia. Qed.

Lemma vertex_stream_size N (scale : F) (heights : list F) :
  0 <= N ->
  Z.of_nat (length (vertex_stream N scale heights)) = 8 * (N * N).
Proof. intros HN. rewrite length_vertex_stream. nia. Qed.

Lemma index_sequence_size N :
  1 <= N -> Z.of_nat (length (index_sequence N)) = 6 * ((N - 1) * (N - 1)).
Proof. intros HN. rewrite length_index_sequence. nia. Qed.

Lemma index_count_eq : Z.of_nat (length (index_sequence GRID_N)) = index_count.
Proof. apply index_sequence_size. unfold GRID_N. lia. Qed.

Lemma generateTerrain_GRID_N (vertices : list F) (indices : list Z)
    (scale offsetX offsetZ amplitude freq : F) :
  exists vertices',
    generateTerrain vertices indices GRID_N scale offsetX offsetZ
      amplitude freq = Some (vertices', index_sequence GRID_N) /\
    Z.of_nat (length vertices') = vertex_floats.
Proof.
  destruct (generateTerrain_spec vertices indices GRID_N scale offsetX offsetZ
              amplitude freq) as (hs & _ & _ & E); [apply GRID_N_in_range|].
  eexists. split; [exact E|].
  apply vertex_stream_size. unfold GRID_N. lia.
Qed.

Lemma startup_consistent (g : Globals.t F C) :
  exists st vertices,
    startup g
      = Some (st, [glBufferData_array (vertex_floats * 4) vertices;
                   glBufferData_element (index_count * 4)
                     (index_sequence GRID_N)]) /\
    globals st = g /\ terrainVertices st = vertices /\
    lastOffset st = None /\ buffers_consistent st.
Proof.
  unfold startup.
  destruct (generateTerrain_GRID_N [] [] (Globals.terrainScale g)
              (Globals.terrainOffsetX g) (Globals.terrainOffsetZ g)
              (Globals.terrainAmplitude g) (Globals.terrainFreq g))
    as (vs & -> & Hlen).
  cbn [mbind option_bind fst snd]. rewrite Hlen, index_count_eq.
  eexists _, vs. split; [reflexivity|].
  cbn [globals terrainVertices lastOffset].
  split; [reflexivity|]. split; [reflexivity|]. split; [reflexivity|].
  unfold buffers_consistent.
  cbn [terrainVertices terrainIndices terrainIndexCount].
  split; [exact Hlen|]. split; reflexivity.
Qed.

(** The globals after a pass are those [processInput] leaves. *)
Lemma frame_globals (currentFrame : F) (keys : Key -> bool)
    (st st' : loop_state F C) (calls : list (gl_call F)) :
  frame ProcessKeyboard currentFrame keys st = Some (st', calls) ->
  globals st'
  = processInput ProcessKeyboard keys
      (Globals.set_time
         (fsub currentFrame (Globals.lastFrame (globals st)))
         currentFrame (globals st)).
Proof.
  unfold frame.
  destruct (match lastOffset st with Some last => last | None => _ end)
    as [lx lz].
  destruct (offset_changed lx lz _).
  - destruct (generateTerrain _ _ _ _ _ _ _ _) as [mesh|]; [|discriminate].
    cbn [mbind option_bind]. now intros [= <- _].
  - now intros [= <- _].
Qed.

Lemma frame_consistent (currentFrame : F) (keys : Key -> bool)
    (st : loop_state F C) :
  buffers_consistent st ->
  exists st' calls,
    frame ProcessKeyboard currentFrame keys st = Some (st', calls) /\
    buffers_consistent st' /\ Forall loop_call_ok calls.
Proof.
  intros (Hv & Hi & Hc). unfold frame.
  destruct (match lastOffset st with Some last => last | None => _ end)
    as [lx lz].
  destruct (offset_changed lx lz _).
  - match goal with
    | |- context [generateTerrain ?v ?i GRID_N ?s ?ox ?oz ?a ?f] =>
        destruct (generateTerrain_GRID_N v i s ox oz a f) as (vs & -> & Hlen)
    end.
    cbn [mbind option_bind fst snd].
    eexists _, _. split; [reflexivity|]. split.
    + unfold buffers_consistent.
      cbn [terrainVertices terrainIndices terrainIndexCount].
      split; [exact Hlen|]. split; [reflexivity|exact Hc].
    + constructor; [|constructor; [exact Hc|constructor]].
      unfold loop_call_ok. rewrite Hlen.
      split; [reflexivity|]. split; reflexivity.
  - eexists _, _. split; [reflexivity|]. split.
    + unfold buffers_consistent.
      cbn [terrainVertices terrainIndices terrainIndexCount].
      split; [exact Hv|]. split; [exact Hi|exact Hc].
    + constructor; [exact Hc|constructor].
Qed.

Lemma render_loop_consistent
    (inputs : list (F * (Key -> bool) * list (input_event D))) :
  forall st : loop_state F C,
    buffers_consistent st ->
    exists st' calls,
      render_loop ProcessKeyboard ProcessMouseMovement ProcessMouseScroll
        to_float inputs st = Some (st', calls) /\
      buffers_consistent st' /\ Forall loop_call_ok calls.
Proof.
  induction inputs as [|[[now keys] events] inputs IH]; intros st Hst.
  - exists st, []. split; [reflexivity|]. split; [exact Hst|constructor].
  - cbn [render_loop].
    destruct (Globals.windowShouldClose (globals st)).
    + exists st, []. split; [reflexivity|]. split; [exact Hst|constructor].
    + destruct (frame_consistent now keys st Hst) as (st1 & c1 & -> & H1 & Hc1).
      cbn [mbind option_bind].
      destruct (IH (set_globals
                      (glfwPollEvents ProcessMouseMovement ProcessMouseScroll
                         to_float events (globals st1)) st1))
        as (st2 & c2 & -> & H2 & Hc2); [exact H1|].
      cbn [mbind option_bind].
      eexists _, _. split; [reflexivity|]. split; [exact H2|].
      now apply Forall_app.
Qed.

(** From startup on, the render loop never leaves defined behaviour,
    whatever the times, keys and events: startup allocates the vertex
    buffer with [8 GRID_N^2] floats and uploads the index sequence once;
    afterwards every glBufferSubData starts at offset 0 and carries
    exactly the allocated number of bytes, every glDrawElements asks for
    exactly the uploaded number of indices, and the index vector is never
    changed. *)
Theorem render_loop_buffers_fit (g : Globals.t F C)
    (inputs : list (F * (Key -> bool) * list (input_event D))) :
  exists st0 vertices st calls,
    startup g
      = Some (st0, [glBufferData_array (vertex_floats * 4) vertices;
                    glBufferData_element (index_count * 4)
                      (index_sequence GRID_N)]) /\
    Z.of_nat (length vertices) = vertex_floats /\
    Z.of_nat (length (index_sequence GRID_N)) = index_count /\
    render_loop ProcessKeyboard ProcessMouseMovement ProcessMouseScroll
      to_float inputs st0 = Some (st, calls) /\
    Forall loop_call_ok calls /\
    terrainIndices st = index_sequence GRID_N.
Proof.
  destruct (startup_consistent g) as (st0 & vs & E & _ & Hvs & _ & Hst0).
  destruct (render_loop_consistent inputs st0 Hst0)
    as (st & calls & E' & Hst & Hcalls).
  exists st0, vs, st, calls. split; [exact E|].
  split; [rewrite <- Hvs; apply Hst0|].
  split; [exact index_count_eq|].
  split; [exact E'|]. split; [exact Hcalls|]. apply Hst.
Qed.

End LoopFacts.

(** ** What [processInput] does to the terrain offset *)

(** A key that scrolls the terrain is down. *)
Definition scroll_key_down (keys : Key -> bool) : bool :=
  keys GLFW_KEY_W || keys GLFW_KEY_S || keys GLFW_KEY_A || keys GLFW_KEY_D
  || keys GLFW_KEY_UP || keys GLFW_KEY_DOWN
  || keys GLFW_KEY_LEFT || keys GLFW_KEY_RIGHT.

(** The fields the terrain reads. *)
Definition terrain_view {F C : Type} (g : Globals.t F C)
  : F * F * F * F * F * F * F :=
  (Globals.terrainOffsetX g, Globals.terrainOffsetZ g,
   Globals.terrainScale g, Globals.terrainAmplitude g, Globals.terrainFreq g,
   Globals.deltaTime g, Globals.lastFrame g).

Section InputFacts.
Context {F C : Type} `{FloatOps F}.
Variable ProcessKeyboard : Camera_Movement -> F -> C -> C.

(** The distance one pass scrolls: moveSpeed * deltaTime. *)
Definition scroll_step (g : Globals.t F C) : F :=
  fmul (fmul (flit 20 0) (fdiv (Globals.terrainAmplitude g) (flit 10 0)))
       (Globals.deltaTime g).

Lemma camera_key_view (pressed : bool) (direction : Camera_Movement)
    (g : Globals.t F C) :
  terrain_view (camera_key ProcessKeyboard pressed direction g)
  = terrain_view g.
Proof. now destruct pressed. Qed.

Lemma terrain_keys_offsets (keys : Key -> bool) (g : Globals.t F C) :
  Globals.terrainOffsetX (terrain_keys keys g)
  = (let x := Globals.terrainOffsetX g in
     let x := if keys GLFW_KEY_LEFT || keys GLFW_KEY_A
              then fsub x (scroll_step g) else x in
     if keys GLFW_KEY_RIGHT || keys GLFW_KEY_D
     then fadd x (scroll_step g) else x) /\
  Globals.terrainOffsetZ (terrain_keys keys g)
  = (let z := Globals.terrainOffsetZ g in
     let z := if keys GLFW_KEY_UP || keys GLFW_KEY_W
              then fsub z (scroll_step g) else z in
     if keys GLFW_KEY_DOWN || keys GLFW_KEY_S
     then fadd z (scroll_step g) else z) /\
  Globals.terrainScale (terrain_keys keys g) = Globals.terrainScale g /\
  Globals.terrainAmplitude (terrain_keys keys g)
  = Globals.terrainAmplitude g /\
  Globals.terrainFreq (terrain_keys keys g) = Globals.terrainFreq g /\
  Globals.deltaTime (terrain_keys keys g) = Globals.deltaTime g /\
  Globals.lastFrame (terrain_keys keys g) = Globals.lastFrame g.
Proof.
  unfold terrain_keys, scroll_step.
  destruct (keys GLFW_KEY_UP || keys GLFW_KEY_W),
    (keys GLFW_KEY_DOWN || keys GLFW_KEY_S),
    (keys GLFW_KEY_LEFT || keys GLFW_KEY_A),
    (keys GLFW_KEY_RIGHT || keys GLFW_KEY_D); repeat split.
Qed.

(** The view of the globals [terrain_keys] starts from. *)
Lemma processInput_view (keys : Key -> bool) (g : Globals.t F C) :
  exists g0,
    processInput ProcessKeyboard keys g = terrain_keys keys g0 /\
    terrain_view g0 = terrain_view g.
Proof.
  unfold processInput. eexists. split; [reflexivity|].
  rewrite !camera_key_view. now destruct (keys GLFW_KEY_ESCAPE).
Qed.

Lemma processInput_offsetX (keys : Key -> bool) (g : Globals.t F C) :
  Globals.terrainOffsetX (processInput ProcessKeyboard keys g)
  = let x := Globals.terrainOffsetX g in
    let x := if keys GLFW_KEY_LEFT || keys GLFW_KEY_A
             then fsub x (scroll_step g) else x in
    if keys GLFW_KEY_RIGHT || keys GLFW_KEY_D
    then fadd x (scroll_step g) else x.
Proof.
  destruct (processInput_view keys g) as (g0 & -> & Hv).
  destruct (terrain_keys_offsets keys g0) as (-> & _).
  unfold terrain_view in Hv. injection Hv as Hx Hz Hs Ha Hf Hd Hl.
  unfold scroll_step. now rewrite Hx, Ha, Hd.
Qed.

Lemma processInput_offsetZ (keys : Key -> bool) (g : Globals.t F C) :
  Globals.terrainOffsetZ (processInput ProcessKeyboard keys g)
  = let z := Globals.terrainOffsetZ g in
    let z := if keys GLFW_KEY_UP || keys GLFW_KEY_W
             then fsub z (scroll_step g) else z in
    if keys GLFW_KEY_DOWN || keys GLFW_KEY_S
    then fadd z (scroll_step g) else z.
Proof.
  destruct (processInput_view keys g) as (g0 & -> & Hv).
  destruct (terrain_keys_offsets keys g0) as (_ & -> & _).
  unfold terrain_view in Hv. injection Hv as Hx Hz Hs Ha Hf Hd Hl.
  unfold scroll_step. now rewrite Hz, Ha, Hd.
Qed.

(** The terrain parameters and the clock are not touched. *)
Lemma processInput_keeps (keys : Key -> bool) (g : Globals.t F C) :
  let g' := processInput ProcessKeyboard keys g in
  Globals.terrainScale g' = Globals.terrainScale g /\
  Globals.terrainAmplitude g' = Globals.terrainAmplitude g /\
  Globals.terrainFreq g' = Globals.terrainFreq g /\
  Globals.deltaTime g' = Globals.deltaTime g /\
  Globals.lastFrame g' = Globals.lastFrame g.
Proof.
  cbv zeta. destruct (processInput_view keys g) as (g0 & -> & Hv).
  destruct (terrain_keys_offsets keys g0)
    as (_ & _ & -> & -> & -> & -> & ->).
  unfold terrain_view in Hv. injection Hv as Hx Hz Hs Ha Hf Hd Hl.
  repeat split; assumption.
Qed.

Lemma processInput_idle (keys : Key -> bool) (g : Globals.t F C) :
  scroll_key_down keys = false ->
  Globals.terrainOffsetX (processInput ProcessKeyboard keys g)
    = Globals.terrainOffsetX g /\
  Globals.terrainOffsetZ (processInput ProcessKeyboard keys g)
    = Globals.terrainOffsetZ g.
Proof.
  unfold scroll_key_down. intros Hidle.
  rewrite processInput_offsetX, processInput_offsetZ.
  destruct (keys GLFW_KEY_W), (keys GLFW_KEY_S), (keys GLFW_KEY_A),
    (keys GLFW_KEY_D), (keys GLFW_KEY_UP), (keys GLFW_KEY_DOWN),
    (keys GLFW_KEY_LEFT), (keys GLFW_KEY_RIGHT); try discriminate.
  split; reflexivity.
Qed.

End InputFacts.

(** ** The regeneration test of the render loop *)

(** The statics of the loop are set and the test on them is negative:
    no regeneration is due. *)
Definition quiet {F C : Type} `{FloatOps F} `{FloatCmp F}
    (st : loop_state F C) : Prop :=
  exists lx lz,
    lastOffset st = Some (lx, lz) /\
    offset_changed lx lz (globals st) = false.

(** The pass asks OpenGL for a draw and nothing else. *)
Definition draws_only {F : Type} (count : Z) (calls : list (gl_call F))
  : Prop :=
  Forall (fun c => c = glDrawElements count) calls.

(** No key that scrolls the terrain is down in any of the passes. *)
Definition idle_passes {F D : Type}
    (inputs : list (F * (Key -> bool) * list (input_event D))) : Prop :=
  Forall (fun i => scroll_key_down i.1.2 = false) inputs.

Section GateFacts.
Context {F C D : Type} `{FloatOps F} `{FloatCmp F}.
Variable ProcessKeyboard : Camera_Movement -> F -> C -> C.
Variable ProcessMouseMovement : F -> F -> C -> C.
Variable ProcessMouseScroll : F -> C -> C.
Variable to_float : D -> F.

(** [std::abs (x - x) > 1e-6f] is false. *)
Hypothesis gate_self :
  forall x : F, fgt (fabs (fsub x x)) offset_epsilon = false.

Lemma offset_changed_self (g : Globals.t F C) :
  offset_changed (Globals.terrainOffsetX g) (Globals.terrainOffsetZ g) g
  = false.
Proof. unfold offset_changed. now rewrite !gate_self. Qed.

Lemma offset_changed_view (lx lz : F) (g g' : Globals.t F C) :
  terrain_view g = terrain_view g' ->
  offset_changed lx lz g = offset_changed lx lz g'.
Proof.
  unfold terrain_view, offset_changed. intros [= -> -> _ _ _ _ _].
  reflexivity.
Qed.

Lemma mouse_callback_view (xposIn yposIn : D) (g : Globals.t F C) :
  terrain_view (mouse_callback ProcessMouseMovement to_float xposIn yposIn g)
  = terrain_view g /\
  Globals.windowShouldClose
    (mouse_callback ProcessMouseMovement to_float xposIn yposIn g)
  = Globals.windowShouldClose g.
Proof. unfold mouse_callback. now destruct (Globals.firstMouse g). Qed.

(** Window events move neither the terrain nor the clock, and do not
    close the window. *)
Lemma glfwPollEvents_view (events : list (input_event D)) :
  forall g : Globals.t F C,
    terrain_view
      (glfwPollEvents ProcessMouseMovement ProcessMouseScroll to_float
         events g) = terrain_view g /\
    Globals.windowShouldClose
      (glfwPollEvents ProcessMouseMovement ProcessMouseScroll to_float
         events g) = Globals.windowShouldClose g.
Proof.
  induction events as [|e events IH]; intros g; [now split|].
  cbn [glfwPollEvents fold_left].
  destruct (IH (match e with
                | CursorPos xpos ypos =>
                    mouse_callback ProcessMouseMovement to_float xpos ypos g
                | Scroll xoffset yoffset =>
                    scroll_callback ProcessMouseScroll to_float
                      xoffset yoffset g
                end)) as (Hv & Hc).
  unfold glfwPollEvents in Hv, Hc. rewrite Hv, Hc.
  destruct e as [x y|x y]; [apply mouse_callback_view|now split].
Qed.

Lemma set_time_offsets (dt now : F) (g : Globals.t F C) :
  Globals.terrainOffsetX (Globals.set_time dt now g)
  = Globals.terrainOffsetX g /\
  Globals.terrainOffsetZ (Globals.set_time dt now g)
  = Globals.terrainOffsetZ g.
Proof. now split. Qed.

(** Every pass has a result, and leaves the test negative. *)
Lemma frame_quiet (currentFrame : F) (keys : Key -> bool)
    (st : loop_state F C) :
  exists st' calls,
    frame ProcessKeyboard currentFrame keys st = Some (st', calls) /\
    quiet st' /\ terrainIndexCount st' = terrainIndexCount st.
Proof.
  unfold frame. cbv zeta.
  set (g' := processInput ProcessKeyboard keys _).
  destruct (lastOffset st) as [[lx lz]|]; cbv beta iota.
  - destruct (offset_changed lx lz g') eqn:E.
    + match goal with
      | |- context [generateTerrain ?v ?i GRID_N ?s ?ox ?oz ?a ?f] =>
          destruct (generateTerrain_GRID_N v i s ox oz a f) as (vs & -> & _)
      end.
      cbn [mbind option_bind fst snd].
      eexists _, _. split; [reflexivity|]. split; [|reflexivity].
      eexists _, _. cbn [lastOffset globals].
      split; [reflexivity|apply offset_changed_self].
    + eexists _, _. split; [reflexivity|]. split; [|reflexivity].
      exists lx, lz. cbn [lastOffset globals]. now split.
  - rewrite offset_changed_self.
    eexists _, _. split; [reflexivity|]. split; [|reflexivity].
    eexists _, _. cbn [lastOffset globals].
    split; [reflexivity|apply offset_changed_self].
Qed.

(** The first pass: the statics take the offsets [processInput] has just
    left, so the test is negative whatever the keys. *)
Lemma frame_first (currentFrame : F) (keys : Key -> bool)
    (st : loop_state F C) :
  lastOffset st = None ->
  exists st',
    frame ProcessKeyboard currentFrame keys st
      = Some (st', [glDrawElements (terrainIndexCount st)]) /\
    globals st'
    = processInput ProcessKeyboard keys
        (Globals.set_time
           (fsub currentFrame (Globals.lastFrame (globals st)))
           currentFrame (globals st)) /\
    terrainVertices st' = terrainVertices st /\
    terrainIndices st' = terrainIndices st /\
    terrainIndexCount st' = terrainIndexCount st /\
    quiet st'.
Proof.
  intros Hnone. unfold frame. cbv zeta. rewrite Hnone. cbv beta iota.
  rewrite offset_changed_self.
  eexists. split; [reflexivity|].
  cbn [globals terrainVertices terrainIndices terrainIndexCount].
  repeat (split; [reflexivity|]).
  eexists _, _. cbn [lastOffset globals].
  split; [reflexivity|apply offset_changed_self].
Qed.

(** A pass with no scroll key down, when the test was negative. *)
Lemma frame_idle (currentFrame : F) (keys : Key -> bool)
    (st : loop_state F C) :
  quiet st -> scroll_key_down keys = false ->
  exists st',
    frame ProcessKeyboard currentFrame keys st
      = Some (st', [glDrawElements (terrainIndexCount st)]) /\
    globals st'
    = processInput ProcessKeyboard keys
        (Globals.set_time
           (fsub currentFrame (Globals.lastFrame (globals st)))
           currentFrame (globals st)) /\
    terrainVertices st' = terrainVertices st /\
    terrainIndices st' = terrainIndices st /\
    terrainIndexCount st' = terrainIndexCount st /\
    Globals.terrainOffsetX (globals st')
    = Globals.terrainOffsetX (globals st) /\
    Globals.terrainOffsetZ (globals st')
    = Globals.terrainOffsetZ (globals st) /\
    quiet st'.
Proof.
  intros (lx & lz & Hlast & Hgate) Hidle.
  destruct (processInput_idle ProcessKeyboard keys
              (Globals.set_time
                 (fsub currentFrame (Globals.lastFrame (globals st)))
                 currentFrame (globals st)) Hidle) as (Hx & Hz).
  cbn [Globals.set_time Globals.terrainOffsetX Globals.terrainOffsetZ]
    in Hx, Hz.
  unfold frame. cbv zeta. rewrite Hlast. cbv beta iota.
  set (g' := processInput ProcessKeyboard keys _) in *.
  assert (Hg' : offset_changed lx lz g' = false).
  { unfold offset_changed in *. now rewrite Hx, Hz. }
  rewrite Hg'.
  eexists. split; [reflexivity|].
  cbn [globals terrainVertices terrainIndices terrainIndexCount].
  repeat (split; [reflexivity|]).
  split; [exact Hx|]. split; [exact Hz|].
  exists lx, lz. cbn [lastOffset globals]. now split.
Qed.

Lemma quiet_poll (events : list (input_event D)) (st : loop_state F C) :
  quiet st ->
  quiet (set_globals
           (glfwPollEvents ProcessMouseMovement ProcessMouseScroll to_float
              events (globals st)) st).
Proof.
  intros (lx & lz & Hlast & Hgate). exists lx, lz.
  cbn [set_globals lastOffset globals]. split; [exact Hlast|].
  rewrite <- Hgate. apply offset_changed_view, glfwPollEvents_view.
Qed.

Lemma poll_offsets (events : list (input_event D)) (g : Globals.t F C) :
  Globals.terrainOffsetX
    (glfwPollEvents ProcessMouseMovement ProcessMouseScroll to_float
       events g) = Globals.terrainOffsetX g /\
  Globals.terrainOffsetZ
    (glfwPollEvents ProcessMouseMovement ProcessMouseScroll to_float
       events g) = Globals.terrainOffsetZ g.
Proof.
  destruct (glfwPollEvents_view events g) as (Hv & _).
  unfold terrain_view in Hv. now injection Hv as -> -> _ _ _ _ _.
Qed.

(** Passes with no scroll key down, from a state where the test is
    negative, upload nothing. *)
Lemma render_loop_idle
    (inputs : list (F * (Key -> bool) * list (input_event D))) :
  forall st : loop_state F C,
    quiet st -> idle_passes inputs ->
    exists st' calls,
      render_loop ProcessKeyboard ProcessMouseMovement ProcessMouseScroll
        to_float inputs st = Some (st', calls) /\
      draws_only (terrainIndexCount st) calls /\
      terrainVertices st' = terrainVertices st /\
      terrainIndices st' = terrainIndices st /\
      Globals.terrainOffsetX (globals st')
      = Globals.terrainOffsetX (globals st) /\
      Globals.terrainOffsetZ (globals st')
      = Globals.terrainOffsetZ (globals st).
Proof.
  induction inputs as [|[[now keys] events] inputs IH]; intros st Hq Hidle.
  - exists st, []. split; [reflexivity|]. split; [constructor|]. now repeat split.
  - cbn [render_loop].
    destruct (Globals.windowShouldClose (globals st)).
    { exists st, []. split; [reflexivity|]. split; [constructor|].
      now repeat split. }
    apply Forall_cons in Hidle as (Hkeys & Hidle). cbn [fst snd] in Hkeys.
    destruct (frame_idle now keys st Hq Hkeys)
      as (st1 & -> & _ & Hv1 & Hi1 & Hc1 & Hx1 & Hz1 & Hq1).
    cbn [mbind option_bind].
    destruct (IH _ (quiet_poll events st1 Hq1) Hidle)
      as (st2 & c2 & -> & Hd2 & Hv2 & Hi2 & Hx2 & Hz2).
    cbn [mbind option_bind].
    cbn [set_globals terrainVertices terrainIndices terrainIndexCount globals]
      in Hd2, Hv2, Hi2, Hx2, Hz2.
    destruct (poll_offsets events (globals st1)) as (Hpx & Hpz).
    eexists _, _. split; [reflexivity|].
    split; [constructor; [reflexivity|now rewrite <- Hc1]|].
    split; [congruence|]. split; [congruence|]. split; congruence.
Qed.

(** After any pass, passes with no scroll key down upload nothing. *)
Lemma render_loop_after_pass (currentFrame : F) (keys : Key -> bool)
    (events : list (input_event D))
    (idles : list (F * (Key -> bool) * list (input_event D)))
    (st : loop_state F C) :
  idle_passes idles ->
  exists st1 calls1 st2 calls2,
    frame ProcessKeyboard currentFrame keys st = Some (st1, calls1) /\
    render_loop ProcessKeyboard ProcessMouseMovement ProcessMouseScroll
      to_float idles
      (set_globals
         (glfwPollEvents ProcessMouseMovement ProcessMouseScroll to_float
            events (globals st1)) st1) = Some (st2, calls2) /\
    draws_only (terrainIndexCount st) calls2 /\
    terrainVertices st2 = terrainVertices st1 /\
    Globals.terrainOffsetX (globals st2)
    = Globals.terrainOffsetX (globals st1) /\
    Globals.terrainOffsetZ (globals st2)
    = Globals.terrainOffsetZ (globals st1).
Proof.
  intros Hidle.
  destruct (frame_quiet currentFrame keys st) as (st1 & c1 & E1 & Hq1 & Hc1).
  destruct (render_loop_idle idles _ (quiet_poll events st1 Hq1) Hidle)
    as (st2 & c2 & E2 & Hd2 & Hv2 & _ & Hx2 & Hz2).
  cbn [set_globals terrainVertices terrainIndexCount globals]
    in Hd2, Hv2, Hx2, Hz2.
  destruct (poll_offsets events (globals st1)) as (Hpx & Hpz).
  exists st1, c1, st2, c2. split; [exact E1|]. split; [exact E2|].
  split; [now rewrite <- Hc1|]. split; [exact Hv2|]. split; congruence.
Qed.

(** From startup: whatever keys are down in the first pass, the mesh is
    not regenerated in it, nor in the passes with no scroll key down that
    follow, although the offsets have moved. *)
Lemma render_loop_first_pass (g : Globals.t F C) (currentFrame : F)
    (keys : Key -> bool) (events : list (input_event D))
    (idles : list (F * (Key -> bool) * list (input_event D))) :
  Globals.windowShouldClose g = false ->
  idle_passes idles ->
  exists st0 uploads st calls,
    startup g = Some (st0, uploads) /\
    render_loop ProcessKeyboard ProcessMouseMovement ProcessMouseScroll
      to_float ((currentFrame, keys, events) :: idles) st0
      = Some (st, calls) /\
    draws_only index_count calls /\
    terrainVertices st = terrainVertices st0 /\
    let g' := processInput ProcessKeyboard keys
                (Globals.set_time (fsub currentFrame (Globals.lastFrame g))
                   currentFrame g) in
    Globals.terrainOffsetX (globals st) = Globals.terrainOffsetX g' /\
    Globals.terrainOffsetZ (globals st) = Globals.terrainOffsetZ g'.
Proof.
  intros Hopen Hidle.
  destruct (startup_consistent g)
    as (st0 & vs & E0 & Hg0 & _ & Hnone & _ & _ & Hcount).
  destruct (frame_first currentFrame keys st0 Hnone)
    as (st1 & E1 & Hg1 & Hv1 & _ & Hc1 & Hq1).
  destruct (render_loop_idle idles _ (quiet_poll events st1 Hq1) Hidle)
    as (st2 & c2 & E2 & Hd2 & Hv2 & _ & Hx2 & Hz2).
  cbn [set_globals terrainVertices terrainIndexCount globals]
    in Hd2, Hv2, Hx2, Hz2.
  destruct (poll_offsets events (globals st1)) as (Hpx & Hpz).
  eexists st0, _, st2, _. split; [exact E0|].
  cbn [render_loop]. rewrite Hg0, Hopen, E1. cbn [mbind option_bind].
  rewrite E2. cbn [mbind option_bind]. split; [reflexivity|].
  rewrite Hc1, Hcount in Hd2.
  split; [constructor; [now rewrite Hcount|exact Hd2]|].
  split; [congruence|].
  cbv zeta. rewrite Hg0 in Hg1. rewrite <- Hg1. split; congruence.
Qed.

End GateFacts.

(** [std::abs (x - x) > 1e-6f] is false for every binary32 [x]: the
    difference is +0, or NaN when [x] is infinite or NaN, and no
    comparison with NaN holds. *)
Lemma gate_self32 (noise : noise_fn spec_float)
    (pw : spec_float -> spec_float -> spec_float) (x : spec_float) :
  @fgt _ cmp32
    (@fabs _ cmp32 (@fsub _ (binary32 noise pw) x x))
    (@offset_epsilon _ (binary32 noise pw)) = false.
Proof.
  unfold offset_epsilon. cbn [fgt fabs fsub flit cmp32 binary32].
  destruct x as [[|]|[|]| |s m e]; try reflexivity.
  now rewrite SFsub_diag.
Qed.

(** [static_cast<float>] of a [double]: round to nearest, ties to even. *)
Definition double_to_float (d : spec_float) : spec_float :=
  match d with
  | S754_finite s m e =>
      binary_normalize B32.prec B32.emax
        (if s then Z.neg m else Z.pos m) e s
  | _ => d
  end.

(** A camera that stays where it is, for running the program. *)
Definition still_keyboard (direction : Camera_Movement) (dt : spec_float)
    (c : unit) : unit := c.
Definition still_mouse (xoffset yoffset : spec_float) (c : unit) : unit := c.
Definition still_scroll (yoffset : spec_float) (c : unit) : unit := c.

(** The globals as the program initialises them (lastX = 1280 / 2,
    lastY = 720 / 2), over a camera [c]. *)
Definition initial_globals {C : Type} (c : C) : Globals.t spec_float C :=
  Globals.Make c (B32.lit 640 0) (B32.lit 360 0) true
    (B32.lit 0 0) (B32.lit 0 0)
    terrainScale terrainAmplitude terrainFreq terrainOffsetX terrainOffsetZ
    false.

(** Only the right arrow is down. *)
Definition right_arrow (k : Key) : bool :=
  match k with GLFW_KEY_RIGHT => true | _ => false end.

Definition no_key (k : Key) : bool := false.

Section Loop32.
Context {C D : Type}.
Variable noise : noise_fn spec_float.
Variable pw : spec_float -> spec_float -> spec_float.

#[local] Instance loop_ops : FloatOps spec_float := binary32 noise pw.
#[local] Instance loop_cmp : FloatCmp spec_float := cmp32.

Variable ProcessKeyboard : Camera_Movement -> spec_float -> C -> C.
Variable ProcessMouseMovement : spec_float -> spec_float -> C -> C.
Variable ProcessMouseScroll : spec_float -> C -> C.
Variable to_float : D -> spec_float.

(** After any pass of the render loop, from any state, the passes in
    which no scroll key is down regenerate nothing and upload nothing:
    each asks only for the draw of the indices, and the vertices and the
    offsets stay as that pass left them, whatever the times read, the
    other keys and the window events. *)
Theorem render_loop_idle_draws_only (currentFrame : spec_float)
    (keys : Key -> bool) (events : list (input_event D))
    (idles : list (spec_float * (Key -> bool) * list (input_event D)))
    (st : loop_state spec_float C) :
  idle_passes idles ->
  exists st1 calls1 st2 calls2,
    frame ProcessKeyboard currentFrame keys st = Some (st1, calls1) /\
    render_loop ProcessKeyboard ProcessMouseMovement ProcessMouseScroll
      to_float idles
      (set_globals
         (glfwPollEvents ProcessMouseMovement ProcessMouseScroll to_float
            events (globals st1)) st1) = Some (st2, calls2) /\
    draws_only (terrainIndexCount st) calls2 /\
    terrainVertices st2 = terrainVertices st1 /\
    Globals.terrainOffsetX (globals st2)
    = Globals.terrainOffsetX (globals st1) /\
    Globals.terrainOffsetZ (globals st2)
    = Globals.terrainOffsetZ (globals st1).
Proof.
  apply render_loop_after_pass. exact (gate_self32 noise pw).
Qed.

(** The first pass after startup never regenerates the terrain: the two
    statics are initialised after processInput has run, so they take the
    offsets the keys of that pass have just produced.  With the passes
    that follow it in which no scroll key is down, the loop only draws,
    the vertices are those of startup, and the offsets are those the
    first pass left. *)
Theorem render_loop_first_pass_not_regenerated
    (g : Globals.t spec_float C) (currentFrame : spec_float)
    (keys : Key -> bool) (events : list (input_event D))
    (idles : list (spec_float * (Key -> bool) * list (input_event D))) :
  Globals.windowShouldClose g = false ->
  idle_passes idles ->
  exists st0 uploads st calls,
    startup g = Some (st0, uploads) /\
    render_loop ProcessKeyboard ProcessMouseMovement ProcessMouseScroll
      to_float ((currentFrame, keys, events) :: idles) st0
      = Some (st, calls) /\
    draws_only index_count calls /\
    terrainVertices st = terrainVertices st0 /\
    let g' := processInput ProcessKeyboard keys
                (Globals.set_time (fsub currentFrame (Globals.lastFrame g))
                   currentFrame g) in
    Globals.terrainOffsetX (globals st) = Globals.terrainOffsetX g' /\
    Globals.terrainOffsetZ (globals st) = Globals.terrainOffsetZ g'.
Proof.
  apply render_loop_first_pass. exact (gate_self32 noise pw).
Qed.

(** The first cursor event after startup turns the camera by exactly
    (+0, +0) when the cursor position is a number: it is subtracted from
    itself.  The position is recorded and [firstMouse] is cleared. *)
Theorem mouse_callback_first_event (xposIn yposIn : D)
    (g : Globals.t spec_float C) :
  Globals.firstMouse g = true ->
  is_number (to_float xposIn) = true ->
  is_number (to_float yposIn) = true ->
  mouse_callback ProcessMouseMovement to_float xposIn yposIn g
  = Globals.set_camera
      (ProcessMouseMovement (S754_zero false) (S754_zero false)
         (Globals.camera g))
      (Globals.set_mouse (to_float xposIn) (to_float yposIn) false g).
Proof.
  intros Hfirst Hx Hy. unfold mouse_callback. cbv zeta. rewrite Hfirst.
  cbn [Globals.set_mouse Globals.lastX Globals.lastY Globals.camera
       Globals.firstMouse fsub loop_ops binary32].
  now rewrite (SFsub_number_diag _ Hx), (SFsub_number_diag _ Hy).
Qed.

End Loop32.

Lemma render_loop_idle_draws_only_witness :
  idle_passes [(B32.lit 2 0, no_key, [CursorPos (B32.lit 1 0) (B32.lit 1 0)])]
  /\
  exists st1 calls1 st2 calls2,
    @frame _ _ (binary32 (const_noise (B32.lit 0 0)) pow_sqrt) cmp32
      still_keyboard (B32.lit 1 0) right_arrow
      (LoopState (initial_globals tt) [] [] 0 None) = Some (st1, calls1) /\
    @render_loop _ _ _ (binary32 (const_noise (B32.lit 0 0)) pow_sqrt) cmp32
      still_keyboard still_mouse still_scroll double_to_float
      [(B32.lit 2 0, no_key, [CursorPos (B32.lit 1 0) (B32.lit 1 0)])]
      (set_globals
         (@glfwPollEvents _ _ _ (binary32 (const_noise (B32.lit 0 0)) pow_sqrt)
            still_mouse still_scroll double_to_float
            [] (globals st1)) st1) = Some (st2, calls2) /\
    draws_only 0 calls2 /\
    terrainVertices st2 = terrainVertices st1 /\
    Globals.terrainOffsetX (globals st2)
    = Globals.terrainOffsetX (globals st1) /\
    Globals.terrainOffsetZ (globals st2)
    = Globals.terrainOffsetZ (globals st1).
Proof.
  assert (Hidle : idle_passes
            [(B32.lit 2 0, no_key,
              [CursorPos (B32.lit 1 0) (B32.lit 1 0)])])
    by (repeat constructor).
  split; [exact Hidle|].
  exact (render_loop_idle_draws_only (const_noise (B32.lit 0 0)) pow_sqrt
           still_keyboard still_mouse still_scroll double_to_float
           (B32.lit 1 0) right_arrow [] _
           (LoopState (initial_globals tt) [] [] 0 None) Hidle).
Defined.

Lemma render_loop_first_pass_not_regenerated_witness :
  Globals.windowShouldClose (initial_globals tt) = false /\
  idle_passes [(B32.lit 2 0, no_key, [CursorPos (B32.lit 1 0) (B32.lit 1 0)])]
  /\
  exists st0 uploads st calls,
    @startup _ _ (binary32 (const_noise (B32.lit 0 0)) pow_sqrt)
      (initial_globals tt) = Some (st0, uploads) /\
    @render_loop _ _ _ (binary32 (const_noise (B32.lit 0 0)) pow_sqrt) cmp32
      still_keyboard still_mouse still_scroll double_to_float
      [(B32.lit 1 0, right_arrow, []);
       (B32.lit 2 0, no_key, [CursorPos (B32.lit 1 0) (B32.lit 1 0)])] st0
      = Some (st, calls) /\
    draws_only index_count calls /\
    terrainVertices st = terrainVertices st0 /\
    let g' := @processInput _ _ (binary32 (const_noise (B32.lit 0 0)) pow_sqrt)
                still_keyboard right_arrow
                (Globals.set_time
                   (SFsub B32.prec B32.emax (B32.lit 1 0)
                      (Globals.lastFrame (initial_globals tt)))
                   (B32.lit 1 0) (initial_globals tt)) in
    Globals.terrainOffsetX (globals st) = Globals.terrainOffsetX g' /\
    Globals.terrainOffsetZ (globals st) = Globals.terrainOffsetZ g'.
Proof.
  assert (Hopen : Globals.windowShouldClose (initial_globals tt) = false)
    by reflexivity.
  assert (Hidle : idle_passes
            [(B32.lit 2 0, no_key,
              [CursorPos (B32.lit 1 0) (B32.lit 1 0)])])
    by (repeat constructor).
  split; [exact Hopen|]. split; [exact Hidle|].
  exact (render_loop_first_pass_not_regenerated
           (const_noise (B32.lit 0 0)) pow_sqrt
           still_keyboard still_mouse still_scroll double_to_float
           (initial_globals tt) (B32.lit 1 0) right_arrow [] _ Hopen Hidle).
Defined.

Lemma mouse_callback_first_event_witness :
  Globals.firstMouse (initial_globals tt) = true /\
  is_number (double_to_float (S754_finite false 7036874417766 (-44))) = true /\
  is_number (double_to_float (S754_zero true)) = true /\
  @mouse_callback _ _ _ (binary32 (const_noise (B32.lit 0 0)) pow_sqrt)
    still_mouse double_to_float
    (S754_finite false 7036874417766 (-44)) (S754_zero true)
    (initial_globals tt)
  = Globals.set_camera
      (still_mouse (S754_zero false) (S754_zero false)
         (Globals.camera (initial_globals tt)))
      (Globals.set_mouse
         (double_to_float (S754_finite false 7036874417766 (-44)))
         (double_to_float (S754_zero true)) false (initial_globals tt)).
Proof.
  assert (Hfirst : Globals.firstMouse (initial_globals tt) = true)
    by reflexivity.
  assert (Hx : is_number
                 (double_to_float (S754_finite false 7036874417766 (-44)))
               = true) by (vm_compute; reflexivity).
  assert (Hy : is_number (double_to_float (S754_zero true)) = true)
    by reflexivity.
  split; [exact Hfirst|]. split; [exact Hx|]. split; [exact Hy|].
  exact (mouse_callback_first_event
           (const_noise (B32.lit 0 0)) pow_sqrt still_mouse double_to_float
           (S754_finite false 7036874417766 (-44)) (S754_zero true)
           (initial_globals tt) Hfirst Hx Hy).
Defined.

(** ** Scrolling and the frame rate *)

(** [moveSpeed] of processInput. *)
Definition moveSpeed {F C : Type} `{FloatOps F} (g : Globals.t F C) : F :=
  fmul (flit 20 0) (fdiv (Globals.terrainAmplitude g) (flit 10 0)).

(** The direction two pairs of keys give: +1, 0 or -1. *)
Definition scroll_direction (keys : Key -> bool)
    (minus minus' plus plus' : Key) : R :=
  ((if keys plus || keys plus' then 1 else 0)
   - (if keys minus || keys minus' then 1 else 0))%R.

(** The same keys held over a sequence of passes. *)
Definition held {F D : Type} (keys : Key -> bool)
    (passes : list (F * list (input_event D)))
  : list (F * (Key -> bool) * list (input_event D)) :=
  map (fun p => (p.1, keys, p.2)) passes.

Section CloseFacts.
Context {F C D : Type} `{FloatOps F} `{FloatCmp F}.
Variable ProcessKeyboard : Camera_Movement -> F -> C -> C.

Lemma camera_key_close (pressed : bool) (direction : Camera_Movement)
    (g : Globals.t F C) :
  Globals.windowShouldClose (camera_key ProcessKeyboard pressed direction g)
  = Globals.windowShouldClose g.
Proof. now destruct pressed. Qed.

Lemma terrain_keys_close (keys : Key -> bool) (g : Globals.t F C) :
  Globals.windowShouldClose (terrain_keys keys g)
  = Globals.windowShouldClose g.
Proof.
  unfold terrain_keys.
  now destruct (keys GLFW_KEY_UP || keys GLFW_KEY_W),
    (keys GLFW_KEY_DOWN || keys GLFW_KEY_S),
    (keys GLFW_KEY_LEFT || keys GLFW_KEY_A),
    (keys GLFW_KEY_RIGHT || keys GLFW_KEY_D).
Qed.

(** Only Escape closes the window. *)
Lemma processInput_close (keys : Key -> bool) (g : Globals.t F C) :
  keys GLFW_KEY_ESCAPE = false ->
  Globals.windowShouldClose (processInput ProcessKeyboard keys g)
  = Globals.windowShouldClose g.
Proof.
  intros Hesc. unfold processInput. cbv zeta. rewrite Hesc.
  now rewrite terrain_keys_close, !camera_key_close.
Qed.

Lemma frame_total (currentFrame : F) (keys : Key -> bool)
    (st : loop_state F C) :
  exists st' calls,
    frame ProcessKeyboard currentFrame keys st = Some (st', calls).
Proof.
  unfold frame.
  destruct (match lastOffset st with Some last => last | None => _ end)
    as [lx lz].
  destruct (offset_changed lx lz _); [|eexists _, _; reflexivity].
  match goal with
  | |- context [generateTerrain ?v ?i GRID_N ?s ?ox ?oz ?a ?f] =>
      destruct (generateTerrain_GRID_N v i s ox oz a f) as (vs & -> & _)
  end.
  eexists _, _. reflexivity.
Qed.

End CloseFacts.

Section FrameRate.
Context {C D : Type}.
Variable noise : noise_fn R.

#[local] Instance rate_ops : FloatOps R := ideal noise.
#[local] Instance rate_cmp : FloatCmp R := cmp_ideal.

Variable ProcessKeyboard : Camera_Movement -> R -> C -> C.
Variable ProcessMouseMovement : R -> R -> C -> C.
Variable ProcessMouseScroll : R -> C -> C.
Variable to_float : D -> R.
Variable keys : Key -> bool.
Hypothesis no_escape : keys GLFW_KEY_ESCAPE = false.

(** What one pass at time [now] and the events after it do to the
    globals. *)
Lemma pass_globals (now : R) (events : list (input_event D))
    (st st' : loop_state R C) (calls : list (gl_call R)) :
  frame ProcessKeyboard now keys st = Some (st', calls) ->
  let g := globals st in
  let g' := glfwPollEvents ProcessMouseMovement ProcessMouseScroll to_float
              events (globals st') in
  (Globals.terrainOffsetX g'
   = Globals.terrainOffsetX g
     + scroll_direction keys GLFW_KEY_LEFT GLFW_KEY_A
         GLFW_KEY_RIGHT GLFW_KEY_D
       * moveSpeed g * (now - Globals.lastFrame g))%R /\
  (Globals.terrainOffsetZ g'
   = Globals.terrainOffsetZ g
     + scroll_direction keys GLFW_KEY_UP GLFW_KEY_W
         GLFW_KEY_DOWN GLFW_KEY_S
       * moveSpeed g * (now - Globals.lastFrame g))%R /\
  Globals.lastFrame g' = now /\
  moveSpeed g' = moveSpeed g /\
  Globals.windowShouldClose g' = Globals.windowShouldClose g.
Proof.
  intros E. cbv zeta. apply frame_globals in E.
  destruct (glfwPollEvents_view ProcessMouseMovement ProcessMouseScroll
              to_float events (globals st')) as (Hv & Hc).
  unfold terrain_view in Hv. injection Hv as Hx Hz _ Ha _ _ Hl.
  assert (Hs : moveSpeed
                 (glfwPollEvents ProcessMouseMovement ProcessMouseScroll
                    to_float events (globals st'))
               = moveSpeed (globals st'))
    by (unfold moveSpeed; now rewrite Ha).
  rewrite Hx, Hz, Hl, Hc, Hs, E. clear Hx Hz Hl Hc Hs Ha E.
  set (g0 := Globals.set_time _ _ _).
  destruct (processInput_keeps ProcessKeyboard keys g0)
    as (_ & Hamp & _ & _ & Hlast).
  assert (Hs : moveSpeed (processInput ProcessKeyboard keys g0)
               = moveSpeed (globals st))
    by (unfold moveSpeed; now rewrite Hamp).
  rewrite Hs, Hlast, processInput_offsetX, processInput_offsetZ,
    (processInput_close ProcessKeyboard keys g0 no_escape).
  unfold scroll_step, scroll_direction, moveSpeed, g0.
  cbn [Globals.set_time Globals.terrainOffsetX Globals.terrainOffsetZ
       Globals.terrainAmplitude Globals.deltaTime Globals.lastFrame
       Globals.windowShouldClose].
  cbn [fadd fsub fmul rate_ops ideal].
  destruct (keys GLFW_KEY_LEFT || keys GLFW_KEY_A),
    (keys GLFW_KEY_RIGHT || keys GLFW_KEY_D),
    (keys GLFW_KEY_UP || keys GLFW_KEY_W),
    (keys GLFW_KEY_DOWN || keys GLFW_KEY_S);
    cbv zeta; repeat split; ring.
Qed.

(** Where the offsets are after a run of passes with the same keys held:
    it depends on the time of the last pass only. *)
Lemma render_loop_held (now : R) (events : list (input_event D))
    (passes : list (R * list (input_event D))) :
  forall st : loop_state R C,
    Globals.windowShouldClose (globals st) = false ->
    exists st' calls,
      render_loop ProcessKeyboard ProcessMouseMovement ProcessMouseScroll
        to_float (held keys (passes ++ [(now, events)])) st
        = Some (st', calls) /\
      (Globals.terrainOffsetX (globals st')
       = Globals.terrainOffsetX (globals st)
         + scroll_direction keys GLFW_KEY_LEFT GLFW_KEY_A
             GLFW_KEY_RIGHT GLFW_KEY_D
           * moveSpeed (globals st)
           * (now - Globals.lastFrame (globals st)))%R /\
      (Globals.terrainOffsetZ (globals st')
       = Globals.terrainOffsetZ (globals st)
         + scroll_direction keys GLFW_KEY_UP GLFW_KEY_W
             GLFW_KEY_DOWN GLFW_KEY_S
           * moveSpeed (globals st)
           * (now - Globals.lastFrame (globals st)))%R.
Proof.
  induction passes as [|[t0 ev0] passes IH]; intros st Hopen.
  - cbn [app held map fst snd render_loop]. rewrite Hopen.
    destruct (frame_total ProcessKeyboard now keys st) as (st1 & c1 & E1).
    rewrite E1. cbn [mbind option_bind].
    eexists _, _. split; [reflexivity|].
    destruct (pass_globals now events st st1 c1 E1) as (Hx & Hz & _).
    cbn [set_globals globals]. split; [exact Hx|exact Hz].
  - cbn [app held map fst snd render_loop]. rewrite Hopen.
    destruct (frame_total ProcessKeyboard t0 keys st) as (st1 & c1 & E1).
    rewrite E1. cbn [mbind option_bind].
    destruct (pass_globals t0 ev0 st st1 c1 E1)
      as (Hx & Hz & Hlast & Hspeed & Hclose).
    cbv zeta in Hx, Hz, Hlast, Hspeed, Hclose.
    destruct (IH (set_globals
                    (glfwPollEvents ProcessMouseMovement ProcessMouseScroll
                       to_float ev0 (globals st1)) st1))
      as (st2 & c2 & E2 & Hx2 & Hz2).
    { cbn [set_globals globals]. now rewrite Hclose. }
    unfold held in E2. rewrite E2. cbn [mbind option_bind].
    eexists _, _. split; [reflexivity|].
    cbn [set_globals globals] in Hx2, Hz2.
    rewrite Hx2, Hz2, Hx, Hz, Hlast, Hspeed. split; ring.
Qed.

End FrameRate.


(** The globals of the program over the reals. *)
Definition ideal_globals : Globals.t R unit :=
  Globals.Make tt 640%R 360%R true 0%R 0%R (/ 2)%R 30%R (1 / 50)%R 0%R 0%R
    false.

